(** * pdf_upload: the upload, catalog and listing core of the backend

    A shallow embedding of [src/backend/src/server.ts] (the Express
    handlers, the multer configuration and [formatFileSize]) together with
    the table [pdf_files] that the database initialisation script of the
    repository creates.

    Conventions of the model.
    - JavaScript strings and PostgreSQL text are the byte strings of their
      UTF-8 encoding ([string]), the encoding in which the driver hands texts
      to the database; a character is a code point: a byte that continues
      no character, with the continuation bytes that follow it.  Case
      folding is the ASCII one.
    - JavaScript numbers that hold byte counts, page numbers and row counts
      are integers ([Z]); [NaN] and fractional values are outside the model.
      JavaScript computes exactly with the integers up to
      [Number.MAX_SAFE_INTEGER]; beyond them it rounds, and the integers of
      the model then stand for the numbers before rounding.
    - The relational store is a list of rows in insertion order; each SQL
      statement of the source is a function on that list which follows the
      PostgreSQL meaning of the statement, [None] being a statement that
      PostgreSQL rejects.
    - Paths are those of a POSIX system.
    - The upload directory is the list of paths that currently exist;
      faults of the file system are outside the model.
    - Values chosen by the environment (uuidv4, clocks, the random suffix
      of a stored file name) are inputs. *)

From Stdlib Require Import ZArith List Bool Lia String Ascii.
From Stdlib Require Import DecimalString Sorting.Sorted.
Import ListNotations.

Local Open Scope string_scope.
Local Open Scope Z_scope.

(** ** Strings *)

Definition str_of_nat (n : nat) : string :=
  NilZero.string_of_uint (Nat.to_uint n).

Definition str_of_Z (z : Z) : string :=
  NilZero.string_of_int (Z.to_int z).

(** ASCII [toLowerCase] on one byte. *)
Definition lower_ascii (c : ascii) : ascii :=
  let n := nat_of_ascii c in
  if ((65 <=? n) && (n <=? 90))%nat then ascii_of_nat (n + 32) else c.

Fixpoint lower (s : string) : string :=
  match s with
  | EmptyString => EmptyString
  | String c s' => String (lower_ascii c) (lower s')
  end.

Fixpoint drop (n : nat) (s : string) : string :=
  match n, s with
  | O, _ => s
  | S n', EmptyString => EmptyString
  | S n', String _ s' => drop n' s'
  end.

Fixpoint take (n : nat) (s : string) : string :=
  match n, s with
  | O, _ => EmptyString
  | S n', EmptyString => EmptyString
  | S n', String c s' => String c (take n' s')
  end.

(** [p] is a prefix of [s]. *)
Fixpoint starts_with (p s : string) : bool :=
  match p with
  | EmptyString => true
  | String a p' =>
      match s with
      | EmptyString => false
      | String b s' => Ascii.eqb a b && starts_with p' s'
      end
  end.

(** [s.replace(pat, rep)] with a string pattern: only the first occurrence
    of [pat] is replaced. *)
Fixpoint replace_first (pat rep s : string) : string :=
  if starts_with pat s then rep ++ drop (String.length pat) s
  else match s with
       | EmptyString => EmptyString
       | String c s' => String c (replace_first pat rep s')
       end.

(** ** Characters of a UTF-8 text *)

(** A byte [10xxxxxx] continues the character begun before it. *)
Definition is_continuation (c : ascii) : bool :=
  let n := nat_of_ascii c in ((128 <=? n) && (n <=? 191))%nat.

(** [s] starts inside a character. *)
Definition continues (s : string) : bool :=
  match s with
  | EmptyString => false
  | String d _ => is_continuation d
  end.

(** The text from its next character on. *)
Fixpoint drop_continuation (s : string) : string :=
  match s with
  | EmptyString => EmptyString
  | String d s' => if is_continuation d then drop_continuation s' else s
  end.

(** The characters of a text in order, each with its bytes. *)
Fixpoint chars (s : string) : list string :=
  match s with
  | EmptyString => []
  | String c s' =>
      if continues s' then
        match chars s' with
        | ch :: rest => String c ch :: rest
        | [] => [String c EmptyString]
        end
      else String c EmptyString :: chars s'
  end.

Definition join (l : list string) : string := fold_right append EmptyString l.

Definition char_length (s : string) : nat := List.length (chars s).

Definition take_chars (n : nat) (s : string) : string := join (firstn n (chars s)).

Definition drop_chars (n : nat) (s : string) : string := join (skipn n (chars s)).

(** The text made of the given bytes. *)
Definition utf8 (bytes : list nat) : string :=
  fold_right (fun n s => String (ascii_of_nat n) s) EmptyString bytes.

(** ** formatFileSize (server.ts:89-95) *)

Definition k : Z := 1024.

Definition sizes : list string := ["Bytes"; "KB"; "MB"; "GB"].

(** [Math.floor(Math.log(bytes) / Math.log(k))] for [bytes >= 1]: the
    exponent [i] with [k^i <= bytes < k^(i+1)].  The quotient of the two
    logarithms is taken as the real number it approximates; the doubles
    that JavaScript computes give the same exponent below [k^4], the range
    of the units table, and may give the next exponent just below a higher
    power of [k]. *)
Definition log_k_floor (bytes : Z) : Z := Z.log2 bytes / Z.log2 k.

(** [x.toFixed(2)] for [x = bytes / k^i], as the number of hundredths:
    the integer [n] for which [n / 100 - x] is closest to zero, the larger
    one on a tie.  The division by a power of two is exact in a double. *)
Definition toFixed2 (bytes d : Z) : Z := (200 * bytes + d) / (2 * d).

(** [parseFloat(h / 100 as "d.dd") + ''] : the shortest decimal, trailing
    zeros of the fraction dropped. *)
Definition number_text (h : Z) : string :=
  let ip := h / 100 in
  let fp := h mod 100 in
  if fp =? 0 then str_of_Z ip
  else if fp mod 10 =? 0 then str_of_Z ip ++ "." ++ str_of_Z (fp / 10)
  else str_of_Z ip ++ "." ++ str_of_Z (fp / 10) ++ str_of_Z (fp mod 10).

(** [sizes[i]] inside a string concatenation: an index outside the array
    reads [undefined]. *)
Definition sizes_at (i : Z) : string :=
  if i <? 0 then "undefined" else nth (Z.to_nat i) sizes "undefined".

(** The body after the guard [bytes === 0].  For [bytes <= 0] the logarithm
    is [-Infinity] or [NaN] and the whole expression renders as
    ["NaN undefined"]. *)
Definition formatFileSize_nonzero (bytes : Z) : string :=
  if bytes <=? 0 then "NaN undefined"
  else
    let i := log_k_floor bytes in
    number_text (toFixed2 bytes (k ^ i)) ++ " " ++ sizes_at i.

Definition formatFileSize (bytes : Z) : string :=
  if bytes =? 0 then "0 Bytes" else formatFileSize_nonzero bytes.

(** ** PostgreSQL text operators used by the statements *)

Definition pct : ascii := "%"%char.
Definition und : ascii := "_"%char.
Definition bsl : ascii := "\"%char.

(** [s LIKE p]: [%] matches any sequence of characters, [_] any single
    character, a backslash makes the next pattern byte literal; the other
    bytes of the pattern stand for themselves.  After [%] the rest of the
    pattern is tried at every character of the text, and [_] passes over
    one character with all its bytes.  A pattern that ends in a lone
    backslash is an error in PostgreSQL; the patterns built by the listing
    handler end in [%], so that case is never reached and is given the
    value [false] here. *)
Fixpoint like_match (p : string) : string -> bool :=
  match p with
  | EmptyString =>
      fun s => match s with EmptyString => true | String _ _ => false end
  | String c p' =>
      if Ascii.eqb c pct then
        fix any (s : string) : bool :=
          (negb (continues s) && like_match p' s)
          || match s with EmptyString => false | String _ s' => any s' end
      else if Ascii.eqb c und then
        fun s => match s with
                 | EmptyString => false
                 | String _ s' => like_match p' (drop_continuation s')
                 end
      else if Ascii.eqb c bsl then
        match p' with
        | EmptyString => fun _ => false
        | String e p'' =>
            fun s => match s with
                     | EmptyString => false
                     | String d s' => Ascii.eqb e d && like_match p'' s'
                     end
        end
      else
        fun s => match s with
                 | EmptyString => false
                 | String d s' => Ascii.eqb c d && like_match p' s'
                 end
  end.

(** [s ILIKE p]: LIKE after case folding of both sides. *)
Definition ilike (s p : string) : bool := like_match (lower p) (lower s).

(** Input conversion of the [uuid] type: sixteen bytes of two hexadecimal
    digits each, an optional hyphen after every second byte, optional
    surrounding braces.  The value is kept as its 32 lower-case digits. *)
Definition is_xdigit (c : ascii) : bool :=
  let n := nat_of_ascii c in
  (((48 <=? n) && (n <=? 57)) || ((65 <=? n) && (n <=? 70))
   || ((97 <=? n) && (n <=? 102)))%nat.

Fixpoint uuid_digits (i todo : nat) (src : string) : option (string * string) :=
  match todo with
  | O => Some (EmptyString, src)
  | S todo' =>
      match src with
      | String a (String b rest) =>
          if is_xdigit a && is_xdigit b then
            let rest' :=
              match rest with
              | String h r =>
                  if Ascii.eqb h "-" && Nat.odd i && (i <? 15)%nat
                  then r else rest
              | EmptyString => rest
              end in
            match uuid_digits (S i) todo' rest' with
            | Some (ds, tl) =>
                Some (String (lower_ascii a) (String (lower_ascii b) ds), tl)
            | None => None
            end
          else None
      | _ => None
      end
  end.

Definition uuid_in (source : string) : option string :=
  let '(braces, src) :=
    match source with
    | String c r => if Ascii.eqb c "{" then (true, r) else (false, source)
    | EmptyString => (false, source)
    end in
  match uuid_digits 0 16 src with
  | Some (ds, tl) =>
      if String.eqb tl (if braces then "}" else "") then Some ds else None
  | None => None
  end.

(** Output of a [uuid] value: groups of 8-4-4-4-12 digits. *)
Definition uuid_out (u : string) : string :=
  take 8 u ++ "-" ++ take 4 (drop 8 u) ++ "-" ++ take 4 (drop 12 u) ++ "-"
  ++ take 4 (drop 16 u) ++ "-" ++ drop 20 u.

Fixpoint all_spaces (s : string) : bool :=
  match s with
  | EmptyString => true
  | String c s' => Ascii.eqb c " " && all_spaces s'
  end.

(** A text value cannot hold the byte zero. *)
Fixpoint has_nul (s : string) : bool :=
  match s with
  | EmptyString => false
  | String c s' => (nat_of_ascii c =? 0)%nat || has_nul s'
  end.

(** Storing into a [VARCHAR(n)] column: the length is counted in
    characters; a longer value is an error unless the characters beyond
    the [n]-th are all spaces, in which case the first [n] characters are
    stored. *)
Definition varchar (n : nat) (s : string) : option string :=
  if has_nul s then None
  else if (char_length s <=? n)%nat then Some s
  else if all_spaces (drop_chars n s) then Some (take_chars n s)
  else None.

(** A value of the type BIGINT. *)
Definition bigint (z : Z) : option Z :=
  if (- 2 ^ 63 <=? z) && (z <? 2 ^ 63) then Some z else None.

(** ** The table pdf_files (database initialisation script)

    [id UUID PRIMARY KEY], [custom_name], [original_name], [file_name]
    VARCHAR(255) NOT NULL, [file_path VARCHAR(500)], [file_size BIGINT],
    [mime_type VARCHAR(100)], [upload_date] and [updated_at] TIMESTAMP
    DEFAULT CURRENT_TIMESTAMP (kept as an instant on the server clock). *)

Record Row := mkRow {
  id : string;
  custom_name : string;
  original_name : string;
  file_name : string;
  file_path : string;
  file_size : Z;
  mime_type : string;
  upload_date : Z;
  updated_at : Z
}.

Definition Table := list Row.

Definition has_id (u : string) (r : Row) : bool := String.eqb (id r) u.

(** [INSERT INTO pdf_files (id, custom_name, original_name, file_name,
    file_path, file_size, mime_type) VALUES ($1..$7) RETURNING *]
    (server.ts:143-149).  [None] is a rejected query: a value that does not
    fit its column, or a duplicate primary key. *)
Definition insert_pdf_file (now : Z) (t : Table)
    (p1 p2 p3 p4 p5 : string) (p6 : Z) (p7 : string) : option (Table * Row) :=
  match uuid_in p1, varchar 255 p2, varchar 255 p3, varchar 255 p4,
        varchar 500 p5, bigint p6, varchar 100 p7 with
  | Some u, Some cn, Some on, Some fn, Some fp, Some sz, Some mt =>
      if existsb (has_id u) t then None
      else
        let r := mkRow u cn on fn fp sz mt now now in
        Some ((t ++ [r])%list, r)
  | _, _, _, _, _, _, _ => None
  end.

(** [SELECT * FROM pdf_files WHERE id = $1] (server.ts:278-281).  The
    parameter is converted to [uuid]; a text that is no uuid rejects the
    query. *)
Definition select_by_id (t : Table) (p1 : string) : option (list Row) :=
  match uuid_in p1 with
  | Some u => Some (filter (has_id u) t)
  | None => None
  end.

(** [DELETE FROM pdf_files WHERE id = $1] (server.ts:294). *)
Definition delete_by_id (t : Table) (p1 : string) : option Table :=
  match uuid_in p1 with
  | Some u => Some (filter (fun r => negb (has_id u r)) t)
  | None => None
  end.

(** [WHERE custom_name ILIKE $3 OR original_name ILIKE $3], or no WHERE
    clause at all ([None]). *)
Definition where_holds (whereClause : option string) (r : Row) : bool :=
  match whereClause with
  | None => true
  | Some p3 => ilike (custom_name r) p3 || ilike (original_name r) p3
  end.

(** [ORDER BY upload_date DESC]: insertion into a descending list.  The
    statement names no second sort key, so PostgreSQL may return rows of
    the same instant in any order and in a different order from one
    statement to the next; here they keep their table order, and what is
    stated about the order of such rows is stated for catalogs without
    equal instants only. *)
Fixpoint insert_desc (r : Row) (l : list Row) : list Row :=
  match l with
  | [] => [r]
  | x :: l' =>
      if upload_date x <=? upload_date r then r :: l
      else x :: insert_desc r l'
  end.

Definition order_by_upload_date_desc (l : list Row) : list Row :=
  fold_right insert_desc [] l.

(** [SELECT * FROM pdf_files <where> ORDER BY upload_date DESC LIMIT $1
    OFFSET $2] (server.ts:197-203), with the values [[limitNum, offset]]
    and, with a WHERE clause, the pattern as third value.  LIMIT and OFFSET
    are BIGINT: a value outside that type, or a negative one, rejects the
    query. *)
Definition select_page (t : Table) (whereClause : option string)
    (p1 p2 : Z) : option (list Row) :=
  match bigint p1, bigint p2 with
  | Some lim, Some off =>
      if (lim <? 0) || (off <? 0) then None
      else Some (firstn (Z.to_nat lim)
                   (skipn (Z.to_nat off)
                      (order_by_upload_date_desc
                         (filter (where_holds whereClause) t))))
  | _, _ => None
  end.

(** The number of rows that a WHERE clause selects: the value of
    [SELECT COUNT( * ) FROM pdf_files <where>]. *)
Definition select_count (t : Table) (whereClause : option string) : Z :=
  Z.of_nat (List.length (filter (where_holds whereClause) t)).

(** [SELECT COUNT( * ) FROM pdf_files ${whereClause}] with the values
    bound to it (server.ts:205-208).  The text is without parameter, or it
    holds the WHERE clause of the page query, which names its pattern
    [$3]: a text that refers to [$3] is a statement of three parameters.
    PostgreSQL rejects a statement that is not given as many values as it
    has parameters. *)
Definition count_query (t : Table) (has_where : bool) (values : list string)
  : option Z :=
  let parameters := if has_where then 3%nat else 0%nat in
  if (List.length values =? parameters)%nat then
    Some (select_count t (if has_where then nth_error values 2 else None))
  else None.

(** ** The upload directory *)

Definition Disk := list string.

Definition existsSync (d : Disk) (p : string) : bool := existsb (String.eqb p) d.

Definition unlinkSync (d : Disk) (p : string) : Disk :=
  filter (fun q => negb (String.eqb p q)) d.

Definition writeFile (d : Disk) (p : string) : Disk :=
  if existsSync d p then d else p :: d.

Record State := mkState {
  pdf_files : Table;
  uploads : Disk
}.

(** ** Configuration (server.ts:22-24) *)

Record Config := mkConfig {
  UPLOAD_DIR : string;
  MAX_FILE_SIZE : Z
}.

Definition default_config : Config := mkConfig "./uploads" 10485760.

(** ** Response bodies (types.ts) *)

Record UploadedFile := mkUploadedFile {
  uf_id : string;
  customName : string;
  originalName : string;
  fileName : string;
  fileSize : string;
  uploadDate : Z;
  downloadUrl : string
}.

Module UploadResponse.
Record t := mk {
  success : bool;
  message : string;
  files : list UploadedFile;
  error : option string
}.
End UploadResponse.

Record Pagination := mkPagination {
  page : Z;
  limit : Z;
  total : Z;
  totalPages : Z
}.

Module FilesResponse.
Record t := mk {
  success : bool;
  files : list UploadedFile;
  pagination : Pagination;
  error : option string
}.
End FilesResponse.

Module DeleteResponse.
Record t := mk {
  success : bool;
  message : string;
  error : option string
}.
End DeleteResponse.

(** ** Multer (server.ts:40-64) *)

(** One file part of the multipart request (a part that carries a file
    name; multer passes over the others), with the suffix
    [Date.now() + '-' + Math.round(Math.random() * 1E9)] that the filename
    callback draws for it. *)
Record Part := mkPart {
  fieldname : string;
  part_originalname : string;
  part_mimetype : string;
  part_size : Z;
  uniqueSuffix : string
}.

(** [Express.Multer.File] as the handler reads it. *)
Record File := mkFile {
  originalname : string;
  mimetype : string;
  size : Z;
  filename : string;
  path : string
}.

(** The characters that [\s] matches in a regular expression of
    JavaScript: tab, line feed, vertical tab, form feed, carriage return,
    space, U+00A0, U+1680, U+2000 to U+200A, U+2028, U+2029, U+202F,
    U+205F, U+3000 and U+FEFF. *)
Definition white_space : list string :=
  map utf8
      ([[9]; [10]; [11]; [12]; [13]; [32]; [194; 160]; [225; 154; 128];
        [226; 128; 128]; [226; 128; 129]; [226; 128; 130]; [226; 128; 131];
        [226; 128; 132]; [226; 128; 133]; [226; 128; 134]; [226; 128; 135];
        [226; 128; 136]; [226; 128; 137]; [226; 128; 138];
        [226; 128; 168]; [226; 128; 169]; [226; 128; 175]; [226; 129; 159];
        [227; 128; 128]; [239; 187; 191]])%nat.

Definition is_white_space (ch : string) : bool :=
  existsb (String.eqb ch) white_space.

(** [/\s+/g] replaced by ['_'] over the characters of a name: every run of
    white-space characters becomes one underscore. *)
Fixpoint replace_runs (in_run : bool) (l : list string) : list string :=
  match l with
  | [] => []
  | ch :: rest =>
      if is_white_space ch then
        if in_run then replace_runs true rest
        else "_" :: replace_runs true rest
      else ch :: replace_runs false rest
  end.

(** [name.replace(/\s+/g, '_')] *)
Definition replace_spaces (name : string) : string :=
  join (replace_runs false (chars name)).

Definition storage_filename (p : Part) : string :=
  let safeName := replace_spaces (part_originalname p) in
  "pdf-" ++ uniqueSuffix p ++ "-" ++ safeName.

(** The segments of a path between its slashes. *)
Fixpoint split_slash (s : string) : list string :=
  match s with
  | EmptyString => [EmptyString]
  | String c s' =>
      if Ascii.eqb c "/" then EmptyString :: split_slash s'
      else match split_slash s' with
           | seg :: segs => String c seg :: segs
           | [] => [String c EmptyString]
           end
  end.

(** [normalizeString] of Node's [path]: empty segments and [.] are passed
    over, [..] takes back the segment before it; where there is none to
    take back, [..] is kept in a relative path and dropped in an absolute
    one.  [res] holds the segments kept so far, the last one first. *)
Fixpoint normalizeString (allowAboveRoot : bool) (res segs : list string)
  : list string :=
  match segs with
  | [] => rev res
  | seg :: segs' =>
      if String.eqb seg "" || String.eqb seg "." then
        normalizeString allowAboveRoot res segs'
      else if String.eqb seg ".." then
        match res with
        | top :: res' =>
            if String.eqb top ".." then
              normalizeString allowAboveRoot
                (if allowAboveRoot then ".." :: res else res) segs'
            else normalizeString allowAboveRoot res' segs'
        | [] =>
            normalizeString allowAboveRoot
              (if allowAboveRoot then [".."] else []) segs'
        end
      else normalizeString allowAboveRoot (seg :: res) segs'
  end.

Fixpoint ends_with_slash (s : string) : bool :=
  match s with
  | EmptyString => false
  | String c EmptyString => Ascii.eqb c "/"
  | String _ s' => ends_with_slash s'
  end.

(** [path.normalize(p)] *)
Definition path_normalize (p : string) : string :=
  match p with
  | EmptyString => "."
  | String c _ =>
      let isAbsolute := Ascii.eqb c "/" in
      let trailingSeparator := ends_with_slash p in
      let body :=
        String.concat "/" (normalizeString (negb isAbsolute) [] (split_slash p)) in
      match body with
      | EmptyString =>
          if isAbsolute then "/" else if trailingSeparator then "./" else "."
      | String _ _ =>
          (if isAbsolute then "/" else "") ++ body
          ++ (if trailingSeparator then "/" else "")
      end
  end.

(** [path.join(dir, name)], by which multer's disk storage makes
    [file.path] from the destination and the file name: the arguments that
    are not empty, joined by a slash and normalised. *)
Definition path_join (dir name : string) : string :=
  match dir, name with
  | EmptyString, EmptyString => "."
  | EmptyString, String _ _ => path_normalize name
  | String _ _, EmptyString => path_normalize dir
  | String _ _, String _ _ => path_normalize (dir ++ "/" ++ name)
  end.

Definition allowedMimes : list string := ["application/pdf"; "application/x-pdf"].

Definition fileFilter (file_mimetype : string) : bool :=
  existsb (String.eqb file_mimetype) allowedMimes.

(** The error handed to [next]: a [MulterError] with its code, or the
    plain [Error] of the file filter. *)
Record UploadError := mkUploadError {
  is_MulterError : bool;
  code : string;
  err_message : string
}.

Definition LIMIT_FILE_SIZE : UploadError :=
  mkUploadError true "LIMIT_FILE_SIZE" "File too large".
Definition LIMIT_UNEXPECTED_FILE : UploadError :=
  mkUploadError true "LIMIT_UNEXPECTED_FILE" "Unexpected field".
Definition LIMIT_FIELD_VALUE : UploadError :=
  mkUploadError true "LIMIT_FIELD_VALUE" "Field value too long".
Definition filter_error : UploadError :=
  mkUploadError false "" "Apenas arquivos PDF são permitidos!".

Definition stored_file (cfg : Config) (p : Part) : File :=
  mkFile (part_originalname p) (part_mimetype p) (part_size p)
         (storage_filename p) (path_join (UPLOAD_DIR cfg) (storage_filename p)).

(** [upload.array('pdfFiles', 10)] over the file parts: they are taken in
    order; a part in another field or beyond the count is unexpected, the
    file filter runs before anything is written, the size limit is met
    while the part is written.  On an error every file written for the
    request is removed.  [fileSize] is taken as multer documents it, the
    largest size of a file that is accepted; the release of the library is
    not fixed by the sources, and releases built on busboy 1.x also turn
    down a file of exactly that size. *)
Fixpoint multer_array (cfg : Config) (filesLeft : nat) (parts : list Part)
    (d : Disk) {struct parts} : Disk * (UploadError + list File) :=
  match parts with
  | [] => (d, inr [])
  | p :: rest =>
      match filesLeft with
      | O => (d, inl LIMIT_UNEXPECTED_FILE)
      | S filesLeft' =>
          if negb (String.eqb (fieldname p) "pdfFiles") then
            (d, inl LIMIT_UNEXPECTED_FILE)
          else if negb (fileFilter (part_mimetype p)) then
            (d, inl filter_error)
          else
            let file := stored_file cfg p in
            let d1 := writeFile d (path file) in
            if MAX_FILE_SIZE cfg <? part_size p then
              (unlinkSync d1 (path file), inl LIMIT_FILE_SIZE)
            else
              match multer_array cfg filesLeft' rest d1 with
              | (d2, inl e) => (unlinkSync d2 (path file), inl e)
              | (d2, inr fs) => (d2, inr (file :: fs))
              end
      end
  end.

(** ** handleUploadError (server.ts:67-86) *)

Definition handleUploadError (e : UploadError) : Z * UploadResponse.t :=
  if is_MulterError e && String.eqb (code e) "LIMIT_FILE_SIZE" then
    (400, UploadResponse.mk false "" []
            (Some "Arquivo muito grande. Máximo 10MB permitido."))
  else
    (400, UploadResponse.mk false "" [] (Some (err_message e))).

(** ** POST /api/upload (server.ts:108-179) *)

(** The form field [customNames] of the request: absent or empty (falsy,
    so [[]] is used), a text on which [JSON.parse] throws, the text [null]
    (indexing the result throws a TypeError in the loop), a text that
    parses to the declared [string[]], or a text longer than the size that
    multer allows the value of a field (1 MiB, no [fieldSize] being
    configured), which never reaches the handler.  Other JSON values are
    outside the model. *)
Inductive CustomNames :=
| NoCustomNames
| InvalidJson
| NullJson
| NamesArray (names : list string)
| FieldValueTooLong.

(** What the environment supplies to the [i]-th turn of the loop. *)
Record Env := mkEnv {
  uuidv4 : nat -> string;
  CURRENT_TIMESTAMP : nat -> Z;
  new_Date : nat -> Z
}.

Record UploadRequest := mkUploadRequest {
  req_parts : list Part;
  customNames : CustomNames
}.

(** [customNamesArray[i] || file.originalname.replace('.pdf', '')] *)
Definition customName_of (customNamesArray : list string) (i : nat)
    (file : File) : string :=
  match nth_error customNamesArray i with
  | Some (String c s) => String c s
  | _ => replace_first ".pdf" "" (originalname file)
  end.

Definition upload_result (env : Env) (i : nat) (cn : string) (file : File)
  : UploadedFile :=
  mkUploadedFile (uuidv4 env i) cn (originalname file) (filename file)
                 (formatFileSize (size file)) (new_Date env i)
                 ("/api/download/" ++ uuidv4 env i).

(** The [for] loop; [None] is an exception raised by a query, which leaves
    the rows inserted so far in place. *)
Fixpoint upload_loop (env : Env) (i : nat) (files : list File)
    (customNamesArray : list string) (t : Table)
  : Table * option (list UploadedFile) :=
  match files with
  | [] => (t, Some [])
  | file :: rest =>
      let cn := customName_of customNamesArray i file in
      let fileId := uuidv4 env i in
      match insert_pdf_file (CURRENT_TIMESTAMP env i) t fileId cn
              (originalname file) (filename file) (path file) (size file)
              (mimetype file) with
      | None => (t, None)
      | Some (t1, _) =>
          match upload_loop env (S i) rest customNamesArray t1 with
          | (t2, None) => (t2, None)
          | (t2, Some results) =>
              (t2, Some (upload_result env i cn file :: results))
          end
      end
  end.

Definition upload_handler (env : Env) (files : list File) (cns : CustomNames)
    (t : Table) : Table * (Z * UploadResponse.t) :=
  match files with
  | [] =>
      (t, (400, UploadResponse.mk false "" [] (Some "Nenhum arquivo selecionado")))
  | _ :: _ =>
      match cns with
      | InvalidJson =>
          (t, (400, UploadResponse.mk false "" []
                      (Some "Formato inválido para nomes customizados")))
      | NullJson =>
          (t, (500, UploadResponse.mk false "" []
                      (Some "Erro interno no servidor")))
      | _ =>
          let customNamesArray :=
            match cns with NamesArray a => a | _ => [] end in
          match upload_loop env 0 files customNamesArray t with
          | (t', Some results) =>
              (t', (200, UploadResponse.mk true
                           (str_of_nat (List.length results)
                            ++ " arquivo(s) upload realizado com sucesso!")
                           results None))
          | (t', None) =>
              (t', (500, UploadResponse.mk false "" []
                           (Some "Erro interno no servidor")))
          end
      end
  end.

(** The middleware [upload.array('pdfFiles', 10)] over the whole request,
    read in the order in which the client writes it: the files, then the
    field [customNames].  A field value above the limit is an error like
    the others: the files written for the request are removed. *)
Definition multer_stage (cfg : Config) (req : UploadRequest) (d : Disk)
  : Disk * (UploadError + list File) :=
  match multer_array cfg 10 (req_parts req) d with
  | (d1, inl e) => (d1, inl e)
  | (d1, inr files) =>
      match customNames req with
      | FieldValueTooLong =>
          (fold_right (fun file d2 => unlinkSync d2 (path file)) d1 files,
           inl LIMIT_FIELD_VALUE)
      | _ => (d1, inr files)
      end
  end.

Definition post_api_upload (cfg : Config) (env : Env) (st : State)
    (req : UploadRequest) : State * (Z * UploadResponse.t) :=
  match multer_stage cfg req (uploads st) with
  | (d, inl e) => (mkState (pdf_files st) d, handleUploadError e)
  | (d, inr files) =>
      let '(t, r) := upload_handler env files (customNames req) (pdf_files st) in
      (mkState t d, r)
  end.

(** ** GET /api/files (server.ts:182-242) *)

Record FilesQuery := mkFilesQuery {
  search : option string;
  q_page : option Z;
  q_limit : option Z
}.

(** [if (search)] : the pattern [`%${search}%`] when [search] is truthy. *)
Definition whereClause (search : option string) : option string :=
  match search with
  | Some (String c s) => Some ("%" ++ String c s ++ "%")
  | _ => None
  end.

(** [Math.ceil(a / b)] for [b <> 0].  With [limit=0] the quotient of the
    source is [Infinity] or [NaN], which the JSON answer shows as [null];
    that page size is outside what is stated about [totalPages]. *)
Definition Math_ceil_div (a b : Z) : Z := - ((- a) / b).

(** The row as the response shows it.  [file.file_size] arrives from the
    driver as the decimal text of the BIGINT, for which the guard
    [bytes === 0] of [formatFileSize] never holds. *)
Definition uploaded_of_row (file : Row) : UploadedFile :=
  mkUploadedFile (uuid_out (id file)) (custom_name file) (original_name file)
                 (file_name file) (formatFileSize_nonzero (file_size file))
                 (upload_date file)
                 ("/api/download/" ++ uuid_out (id file)).

(** The handler: the page query, then the count query, which is given the
    WHERE clause of the page query and, with a search, the pattern as its
    one value; a rejected query throws, and the [catch] block sends the
    fixed answer. *)
Definition get_api_files (t : Table) (q : FilesQuery) : Z * FilesResponse.t :=
  let pageNum := match q_page q with Some p => p | None => 1 end in
  let limitNum := match q_limit q with Some l => l | None => 10 end in
  let offset := (pageNum - 1) * limitNum in
  let failed :=
    (500, FilesResponse.mk false [] (mkPagination 1 10 0 0)
            (Some "Erro ao carregar arquivos")) in
  match select_page t (whereClause (search q)) limitNum offset with
  | Some rows =>
      match count_query t
              (match whereClause (search q) with Some _ => true | None => false end)
              (match whereClause (search q) with Some p3 => [p3] | None => [] end)
      with
      | Some count =>
          (200, FilesResponse.mk true (map uploaded_of_row rows)
                  (mkPagination pageNum limitNum count
                     (Math_ceil_div count limitNum))
                  None)
      | None => failed
      end
  | None => failed
  end.

(** ** DELETE /api/files/:id (server.ts:274-315) *)

Definition delete_api_files (st : State) (req_id : string)
  : State * (Z * DeleteResponse.t) :=
  let failed :=
    (500, DeleteResponse.mk false "" (Some "Erro ao deletar arquivo")) in
  match select_by_id (pdf_files st) req_id with
  | None => (st, failed)
  | Some [] =>
      (st, (404, DeleteResponse.mk false "" (Some "Arquivo não encontrado")))
  | Some (file :: _) =>
      match delete_by_id (pdf_files st) req_id with
      | None => (st, failed)
      | Some t' =>
          let d' :=
            if existsSync (uploads st) (file_path file)
            then unlinkSync (uploads st) (file_path file)
            else uploads st in
          (mkState t' d',
           (200, DeleteResponse.mk true "Arquivo deletado com sucesso" None))
      end
  end.

(** ** GET /api/download/:id, up to the catalog lookup (server.ts:245-256) *)

Definition download_lookup (t : Table) (req_id : string) : Z + Row :=
  match select_by_id t req_id with
  | None => inl 500
  | Some [] => inl 404
  | Some (file :: _) => inr file
  end.

(** ** Notions used by the statements *)

(** The order of the listing: [a] before [b] when [a] was uploaded no
    earlier than [b]. *)
Definition newer_first (a b : Row) : Prop := upload_date b <= upload_date a.

(** A catalog row for the examples: uploaded at instant [n] (two-digit
    suffix of the id), 1536 bytes. *)
Definition sample_row (n : Z) (cn on : string) : Row :=
  mkRow ("3f2504e04f8941d39a0c0305e82c33" ++ str_of_Z (10 + n)) cn on
        ("pdf-1-2-" ++ on) ("uploads/pdf-1-2-" ++ on) 1536 "application/pdf" n n.

(** A part that multer turns down: wrong field, MIME type outside the
    allowed set, or more bytes than the limit. *)
Definition part_ok (cfg : Config) (p : Part) : bool :=
  String.eqb (fieldname p) "pdfFiles" && fileFilter (part_mimetype p)
  && negb (MAX_FILE_SIZE cfg <? part_size p).

Definition bad_part (cfg : Config) (p : Part) : Prop :=
  fieldname p <> "pdfFiles" \/ ~ In (part_mimetype p) allowedMimes
  \/ MAX_FILE_SIZE cfg < part_size p.

Definition multer_rejects (cfg : Config) (parts : list Part) : Prop :=
  (10 < List.length parts)%nat \/ Exists (bad_part cfg) parts.

(** The custom name supplied for position [i], if any. *)
Definition supplied_name (cns : CustomNames) (i : nat) : option string :=
  match cns with
  | NamesArray a => nth_error a i
  | _ => None
  end.

(** [t] occurs in [s]. *)
Fixpoint contains (t s : string) : bool :=
  starts_with t s
  || match s with
     | EmptyString => false
     | String _ s' => contains t s'
     end.

(** The spec's words, "case-insensitive substring". *)
Definition spec_contains_ci (t s : string) : bool := contains (lower t) (lower s).

Definition spec_search_match (t : string) (r : Row) : bool :=
  spec_contains_ci t (custom_name r) || spec_contains_ci t (original_name r).

(** The spec's words, "with the extension stripped": [s] without its final
    [suf], or [s] itself when it does not end in [suf]. *)
Fixpoint strip_suffix (suf s : string) : string :=
  if String.eqb s suf then EmptyString
  else match s with
       | EmptyString => EmptyString
       | String c s' => String c (strip_suffix suf s')
       end.

(** The spec's words, "trimmed": white space removed at both ends (the
    white space of ASCII, which is all that the examples hold). *)
Definition is_space (c : ascii) : bool :=
  let n := nat_of_ascii c in
  ((n =? 32) || ((9 <=? n) && (n <=? 13)))%nat.

Fixpoint trim_left (s : string) : string :=
  match s with
  | EmptyString => EmptyString
  | String c s' => if is_space c then trim_left s' else s
  end.

Fixpoint trim_right (s : string) : string :=
  match s with
  | EmptyString => EmptyString
  | String c s' =>
      let r := trim_right s' in
      if is_space c && String.eqb r "" then EmptyString else String c r
  end.

Definition trim (s : string) : string := trim_right (trim_left s).

(** The display name as the spec words it. *)
Definition spec_customName (cns : CustomNames) (i : nat) (declaredName : string)
  : string :=
  match supplied_name cns i with
  | Some (String c s) => trim (String c s)
  | _ => strip_suffix ".pdf" declaredName
  end.

(** The insert of the loop's turn [i], for [file], into the table [t]. *)
Definition insert_of (env : Env) (customNamesArray : list string) (i : nat)
    (file : File) (t : Table) : option (Table * Row) :=
  insert_pdf_file (CURRENT_TIMESTAMP env i) t (uuidv4 env i)
    (customName_of customNamesArray i file) (originalname file) (filename file)
    (path file) (size file) (mimetype file).

(** The loop over [files] stops at turn [k]: the turns before it inserted
    their rows, which makes the table [t'], and the insert of turn [k] is
    rejected. *)
Definition rejected_at (env : Env) (customNamesArray : list string)
    (files : list File) (t t' : Table) (k : nat) : Prop :=
  exists file results,
    nth_error files k = Some file
    /\ upload_loop env 0 (firstn k files) customNamesArray t = (t', Some results)
    /\ insert_of env customNamesArray k file t' = None.

(** Multer reports an error for the request. *)
Definition multer_fails (cfg : Config) (req : UploadRequest) (d : Disk) : Prop :=
  exists d' e, multer_stage cfg req d = (d', inl e).

Definition sample_part (name mime : string) (bytes : Z) : Part :=
  mkPart "pdfFiles" name mime bytes "1700000000000-123456789".

Definition sample_env : Env :=
  mkEnv (fun i => "3f2504e0-4f89-41d3-9a0c-0305e82c33" ++ str_of_nat (50 + i))
        (fun i => 100 + Z.of_nat i) (fun i => 100 + Z.of_nat i).

Definition empty_state : State := mkState [] [].

(** [customNamesArray] as the handler computes it. *)
Definition names_of (cns : CustomNames) : list string :=
  match cns with NamesArray a => a | _ => [] end.

Definition two_named_pdfs : UploadRequest :=
  mkUploadRequest [sample_part "a.pdf" "application/pdf" 10;
                   sample_part "b.pdf" "application/x-pdf" 20]
                  (NamesArray ["Alpha"; ""]).

Definition padded_name_request : UploadRequest :=
  mkUploadRequest [sample_part "a.pdf" "application/pdf" 10]
                  (NamesArray [" Alpha "]).

(** One PDF with a custom name of 256 characters, one more than the
    column [custom_name] takes. *)
Definition long_name_request : UploadRequest :=
  mkUploadRequest [sample_part "a.pdf" "application/pdf" 10]
                  (NamesArray [join (repeat "x" 256)]).

(** Eleven records whose names all contain the letter a, uploaded at the
    instants 1 to 11. *)
Definition eleven_rows : Table :=
  map (fun n => sample_row n ("a" ++ str_of_Z n) ("a" ++ str_of_Z n ++ ".pdf"))
      [1; 2; 3; 4; 5; 6; 7; 8; 9; 10; 11].

(** The record of the spec's search example. *)
Definition q1_report : Row := sample_row 1 "Q1-Report" "report.pdf".


(** ** GET /api/stats (server.ts:318-345)

    Instants are counted in microseconds, the resolution of TIMESTAMP. *)

Record Stats := mkStats {
  totalFiles : Z;
  totalSize : string;
  recentUploads : Z
}.

Module StatsResponse.
Record t := mk {
  success : bool;
  stats : Stats;
  error : option string
}.
End StatsResponse.

Definition seven_days : Z := 7 * 24 * 60 * 60 * 1000000.

(** [SELECT SUM(file_size) as total_size FROM pdf_files]: NULL over an
    empty table. *)
Definition select_sum_file_size (t : Table) : option Z :=
  match t with
  | [] => None
  | _ :: _ => Some (fold_right (fun r acc => file_size r + acc) 0 t)
  end.

(** [SELECT COUNT( * ) FROM pdf_files WHERE upload_date >= NOW() -
    INTERVAL '7 days'] *)
Definition select_count_recent (t : Table) (now : Z) : Z :=
  Z.of_nat (List.length (filter (fun r => now - seven_days <=? upload_date r) t)).

(** The sum arrives as decimal text, [total_size || '0'] replaces the NULL
    of an empty table, and [parseInt] makes it a number again. *)
Definition get_api_stats (t : Table) (now : Z) : Z * StatsResponse.t :=
  let total_size :=
    match select_sum_file_size t with Some z => z | None => 0 end in
  (200, StatsResponse.mk true
          (mkStats (select_count t None) (formatFileSize total_size)
                   (select_count_recent t now))
          None).

(** ** The client (App.tsx) *)

(** A browser [File]. *)
Module Browser.
Record File := mk {
  name : string;
  type : string;
  size : Z
}.
End Browser.

Module SelectedFile.
Record t := mk {
  file : Browser.File;
  customName : string
}.
End SelectedFile.

(** The filter of [handleFileSelect] and [handleDrop]. *)
Definition selectable (file : Browser.File) : bool :=
  String.eqb (Browser.type file) "application/pdf"
  && (Browser.size file <=? 10 * 1024 * 1024).

(** [handleFileSelect] and [handleDrop] as updates of [selectedFiles]:
    the chosen files that pass the filter are appended, each with the
    custom name [file.name.replace('.pdf', '')]. *)
Definition add_files (chosen : list Browser.File) (prev : list SelectedFile.t)
  : list SelectedFile.t :=
  (prev ++ map (fun file =>
                  SelectedFile.mk file (replace_first ".pdf" "" (Browser.name file)))
               (filter selectable chosen))%list.

(** [prev.map((item, i) => ...)] from index [i]. *)
Fixpoint map_index {A B : Type} (f : A -> nat -> B) (i : nat) (l : list A)
  : list B :=
  match l with
  | [] => []
  | x :: l' => f x i :: map_index f (S i) l'
  end.

(** [prev.filter((_, i) => ...)] from index [i]. *)
Fixpoint filter_index {A : Type} (f : nat -> bool) (i : nat) (l : list A)
  : list A :=
  match l with
  | [] => []
  | x :: l' => if f i then x :: filter_index f (S i) l' else filter_index f (S i) l'
  end.

Definition updateCustomName (index : nat) (newName : string)
    (prev : list SelectedFile.t) : list SelectedFile.t :=
  map_index (fun item i =>
               if (i =? index)%nat
               then SelectedFile.mk (SelectedFile.file item) newName
               else item) 0 prev.

Definition removeFile (index : nat) (prev : list SelectedFile.t)
  : list SelectedFile.t :=
  filter_index (fun i => negb (i =? index)%nat) 0 prev.

(** The pagination bar is drawn when [totalPages > 1]; inside it the
    button to the next page is drawn when [page < totalPages]. *)
Definition show_next (pg : Pagination) : bool :=
  (1 <? totalPages pg) && (page pg <? totalPages pg).

(** ** Further notions used by the statements *)

(** The shape of what [chars] cuts: a character is a byte that continues
    nothing followed by continuation bytes; the first piece of a text that
    starts inside a character is the rest of that character. *)
Fixpoint all_continuation (s : string) : bool :=
  match s with
  | EmptyString => true
  | String c s' => is_continuation c && all_continuation s'
  end.

Definition is_char (ch : string) : bool :=
  match ch with
  | EmptyString => false
  | String c cs => negb (is_continuation c) && all_continuation cs
  end.

Definition is_chunk (ch : string) : bool :=
  match ch with
  | EmptyString => false
  | String _ cs => all_continuation cs
  end.

(** No character of [s] is white space. *)
Definition space_free (s : string) : bool :=
  forallb (fun ch => negb (is_white_space ch)) (chars s).

(** [Number.MAX_SAFE_INTEGER] *)
Definition MAX_SAFE_INTEGER : Z := 2 ^ 53 - 1.

(** The answer of the listing's [catch] block. *)
Definition listing_failed : Z * FilesResponse.t :=
  (500, FilesResponse.mk false [] (mkPagination 1 10 0 0)
          (Some "Erro ao carregar arquivos")).

Definition sample_selected : list SelectedFile.t :=
  add_files [Browser.mk "a.pdf" "application/pdf" 10;
             Browser.mk "notes.txt" "text/plain" 10;
             Browser.mk "b c.pdf" "application/pdf" 20] [].

(** * Properties *)

(** ** Ordering and paging of the listing query *)

Lemma insert_desc_In (r x : Row) (l : list Row) :
  In x (insert_desc r l) <-> x = r \/ In x l.
Proof.
  induction l as [|y l IH]; simpl.
  - intuition.
  - destruct (upload_date y <=? upload_date r); simpl.
    + intuition.
    + rewrite IH. intuition.
Qed.

Lemma insert_desc_sorted (r : Row) (l : list Row) :
  StronglySorted newer_first l -> StronglySorted newer_first (insert_desc r l).
Proof.
  induction 1 as [|y l Hl IH Hy]; simpl.
  - constructor; [constructor | constructor].
  - destruct (upload_date y <=? upload_date r) eqn:E.
    + apply Z.leb_le in E.
      constructor.
      * constructor; assumption.
      * constructor; [exact E|].
        rewrite Forall_forall in Hy |- *.
        intros z Hz. specialize (Hy z Hz). unfold newer_first in *. lia.
    + apply Z.leb_gt in E.
      constructor; [exact IH|].
      rewrite Forall_forall in Hy |- *.
      intros z Hz. apply (proj1 (insert_desc_In _ _ _)) in Hz.
      destruct Hz as [->|Hz]; [unfold newer_first; lia | auto].
Qed.

Lemma order_by_sorted (l : list Row) :
  StronglySorted newer_first (order_by_upload_date_desc l).
Proof.
  induction l as [|r l IH]; simpl.
  - constructor.
  - apply insert_desc_sorted, IH.
Qed.

Lemma order_by_In (x : Row) (l : list Row) :
  In x (order_by_upload_date_desc l) <-> In x l.
Proof.
  induction l as [|r l IH]; simpl.
  - tauto.
  - rewrite insert_desc_In, IH. intuition.
Qed.

Lemma insert_desc_length (r : Row) (l : list Row) :
  List.length (insert_desc r l) = S (List.length l).
Proof.
  induction l as [|y l IH]; simpl; [reflexivity|].
  destruct (upload_date y <=? upload_date r); simpl; congruence.
Qed.

Lemma order_by_length (l : list Row) :
  List.length (order_by_upload_date_desc l) = List.length l.
Proof.
  induction l as [|r l IH]; simpl; [reflexivity|].
  rewrite insert_desc_length. congruence.
Qed.

Lemma In_firstn (A : Type) (x : A) (n : nat) (l : list A) :
  In x (firstn n l) -> In x l.
Proof.
  intros H. rewrite <- (firstn_skipn n l). apply in_or_app. left. exact H.
Qed.

Lemma In_skipn (A : Type) (x : A) (n : nat) (l : list A) :
  In x (skipn n l) -> In x l.
Proof.
  intros H. rewrite <- (firstn_skipn n l). apply in_or_app. right. exact H.
Qed.

Lemma sorted_skipn (n : nat) (l : list Row) :
  StronglySorted newer_first l -> StronglySorted newer_first (skipn n l).
Proof.
  revert l. induction n as [|n IH]; intros l H; simpl; [exact H|].
  destruct l as [|x l]; [constructor|].
  apply IH. inversion H; assumption.
Qed.

Lemma sorted_firstn (n : nat) (l : list Row) :
  StronglySorted newer_first l -> StronglySorted newer_first (firstn n l).
Proof.
  revert l. induction n as [|n IH]; intros l H; simpl; [constructor|].
  destruct l as [|x l]; [constructor|].
  inversion H as [|? ? Hl Hx]; subst.
  constructor; [apply IH, Hl|].
  rewrite Forall_forall in Hx |- *.
  intros z Hz. apply Hx. eapply In_firstn; eauto.
Qed.

Lemma In_firstn_skipn (A : Type) (x : A) (n m : nat) (l : list A) :
  In x (firstn n (skipn m l)) -> In x l.
Proof.
  intros H. apply In_firstn in H. apply In_skipn in H. exact H.
Qed.

Lemma bigint_some (z z' : Z) : bigint z = Some z' -> z' = z /\ - 2 ^ 63 <= z < 2 ^ 63.
Proof.
  unfold bigint.
  destruct (- 2 ^ 63 <=? z) eqn:E1; [|discriminate].
  destruct (z <? 2 ^ 63) eqn:E2; [|discriminate].
  intros [= <-]. apply Z.leb_le in E1. apply Z.ltb_lt in E2. auto.
Qed.

Lemma bigint_in (z : Z) : - 2 ^ 63 <= z < 2 ^ 63 -> bigint z = Some z.
Proof.
  intros [H1 H2]. unfold bigint.
  apply Z.leb_le in H1. apply Z.ltb_lt in H2. now rewrite H1, H2.
Qed.

Lemma select_page_some (t : Table) (w : option string) (l o : Z) :
  0 <= l < 2 ^ 63 -> 0 <= o < 2 ^ 63 ->
  select_page t w l o =
  Some (firstn (Z.to_nat l)
          (skipn (Z.to_nat o) (order_by_upload_date_desc (filter (where_holds w) t)))).
Proof.
  intros Hl Ho. unfold select_page.
  rewrite !bigint_in by lia.
  destruct (l <? 0) eqn:E1; [apply Z.ltb_lt in E1; lia|].
  destruct (o <? 0) eqn:E2; [apply Z.ltb_lt in E2; lia|].
  reflexivity.
Qed.

Lemma select_page_none (t : Table) (w : option string) (l o : Z) :
  l < 0 \/ o < 0 \/ 2 ^ 63 <= l \/ 2 ^ 63 <= o ->
  select_page t w l o = None.
Proof.
  intros H. unfold select_page.
  destruct (bigint l) as [l'|] eqn:El; [|reflexivity].
  destruct (bigint o) as [o'|] eqn:Eo; [|reflexivity].
  apply bigint_some in El, Eo. destruct El as [-> El], Eo as [-> Eo].
  replace ((l <? 0) || (o <? 0)) with true; [reflexivity|].
  symmetry. apply orb_true_iff. rewrite !Z.ltb_lt. lia.
Qed.

Lemma select_page_inv (t : Table) (w : option string) (l o : Z) (rows : list Row) :
  select_page t w l o = Some rows ->
  rows = firstn (Z.to_nat l)
           (skipn (Z.to_nat o) (order_by_upload_date_desc (filter (where_holds w) t)))
  /\ 0 <= l < 2 ^ 63 /\ 0 <= o < 2 ^ 63.
Proof.
  unfold select_page.
  destruct (bigint l) as [l'|] eqn:El; [|discriminate].
  destruct (bigint o) as [o'|] eqn:Eo; [|discriminate].
  apply bigint_some in El, Eo. destruct El as [-> El], Eo as [-> Eo].
  destruct (l <? 0) eqn:E1; [discriminate|].
  destruct (o <? 0) eqn:E2; [discriminate|].
  apply Z.ltb_ge in E1, E2. intros [= <-]. repeat split; lia.
Qed.

Lemma select_page_In (t : Table) (w : option string) (l o : Z) (rows : list Row)
    (r : Row) :
  select_page t w l o = Some rows -> In r rows ->
  In r t /\ where_holds w r = true.
Proof.
  intros Hsel H. apply select_page_inv in Hsel. destruct Hsel as [-> _].
  apply In_firstn_skipn in H.
  apply (proj1 (order_by_In _ _)) in H. apply (proj1 (filter_In _ _ _)) in H. exact H.
Qed.

Lemma select_page_sorted (t : Table) (w : option string) (l o : Z)
    (rows : list Row) :
  select_page t w l o = Some rows -> StronglySorted newer_first rows.
Proof.
  intros Hsel. apply select_page_inv in Hsel. destruct Hsel as [-> _].
  apply sorted_firstn, sorted_skipn, order_by_sorted.
Qed.

Lemma filter_all (A : Type) (l : list A) : filter (fun _ => true) l = l.
Proof. induction l; simpl; congruence. Qed.

Lemma where_none (t : Table) : filter (where_holds None) t = t.
Proof. apply filter_all. Qed.

Lemma select_count_none (t : Table) : select_count t None = Z.of_nat (List.length t).
Proof. unfold select_count. now rewrite where_none. Qed.

Lemma Math_ceil_div_spec (a b : Z) :
  0 < b -> (Math_ceil_div a b - 1) * b < a <= Math_ceil_div a b * b.
Proof.
  intros Hb. unfold Math_ceil_div.
  pose proof (Z.div_mod (- a) b ltac:(lia)) as D.
  pose proof (Z.mod_pos_bound (- a) b Hb) as M.
  nia.
Qed.

Lemma valid_page_offset (p s : Z) : 1 <= p -> 1 <= s -> 0 <= (p - 1) * s.
Proof. intros. nia. Qed.

(** The count query with the WHERE clause and its one value is rejected;
    without WHERE clause and without value it counts the rows. *)
Lemma count_query_where (t : Table) (p3 : string) : count_query t true [p3] = None.
Proof. reflexivity. Qed.

Lemma count_query_plain (t : Table) :
  count_query t false [] = Some (Z.of_nat (List.length t)).
Proof. unfold count_query. cbn. now rewrite select_count_none. Qed.

(** With a search text the count query is rejected, whatever the catalog
    holds and whatever page is asked: the answer is that of the [catch]
    block. *)
Lemma get_api_files_search (t : Table) (c : ascii) (s : string) (pg lm : option Z) :
  get_api_files t (mkFilesQuery (Some (String c s)) pg lm) = listing_failed.
Proof.
  unfold get_api_files. cbn [search q_page q_limit whereClause].
  rewrite count_query_where.
  destruct (select_page t _ _ _); reflexivity.
Qed.

(** Without a search text both queries are accepted for a page from 1 on
    and a page size from 1 on, as long as LIMIT and OFFSET are values of
    BIGINT. *)
Lemma get_api_files_valid (t : Table) (srch : option string) (p s : Z) :
  whereClause srch = None -> 1 <= p -> 1 <= s < 2 ^ 63 -> (p - 1) * s < 2 ^ 63 ->
  get_api_files t (mkFilesQuery srch (Some p) (Some s)) =
  (200,
   FilesResponse.mk true
     (map uploaded_of_row
        (firstn (Z.to_nat s)
           (skipn (Z.to_nat ((p - 1) * s)) (order_by_upload_date_desc t))))
     (mkPagination p s (Z.of_nat (List.length t))
        (Math_ceil_div (Z.of_nat (List.length t)) s))
     None).
Proof.
  intros Hw Hp Hs Ho. unfold get_api_files. cbn [search q_page q_limit].
  rewrite Hw.
  rewrite select_page_some by (pose proof (valid_page_offset p s); lia).
  rewrite count_query_plain, where_none. reflexivity.
Qed.

Lemma get_api_files_rejected (t : Table) (srch : option string) (p s : Z) :
  s < 0 \/ (p - 1) * s < 0 \/ 2 ^ 63 <= s \/ 2 ^ 63 <= (p - 1) * s ->
  get_api_files t (mkFilesQuery srch (Some p) (Some s)) = listing_failed.
Proof.
  intros H. unfold get_api_files. cbn [search q_page q_limit].
  now rewrite select_page_none.
Qed.

(** The two ways the listing ends for a page from 1 on and a page size from
    1 on. *)
Lemma get_api_files_cases (t : Table) (srch : option string) (p s : Z) :
  1 <= p -> 1 <= s ->
  get_api_files t (mkFilesQuery srch (Some p) (Some s)) = listing_failed
  \/ (whereClause srch = None /\ s < 2 ^ 63 /\ (p - 1) * s < 2 ^ 63).
Proof.
  intros Hp Hs.
  destruct srch as [[|c x]|].
  2: { left. apply get_api_files_search. }
  all: destruct (Z.lt_ge_cases s (2 ^ 63)) as [H1|H1];
    [|left; apply get_api_files_rejected; lia];
    destruct (Z.lt_ge_cases ((p - 1) * s) (2 ^ 63)) as [H2|H2];
    [|left; apply get_api_files_rejected; lia];
    right; auto.
Qed.

(** Whatever the request, the records of the answer are the image of rows
    of the catalog in the order of the page query. *)
Lemma get_api_files_rows (t : Table) (q : FilesQuery) :
  (get_api_files t q = listing_failed)
  \/ exists rows,
       select_page t None
         (match q_limit q with Some l => l | None => 10 end)
         ((match q_page q with Some p => p | None => 1 end - 1)
          * match q_limit q with Some l => l | None => 10 end) = Some rows
       /\ whereClause (search q) = None
       /\ get_api_files t q =
          (200, FilesResponse.mk true (map uploaded_of_row rows)
                  (mkPagination
                     (match q_page q with Some p => p | None => 1 end)
                     (match q_limit q with Some l => l | None => 10 end)
                     (Z.of_nat (List.length t))
                     (Math_ceil_div (Z.of_nat (List.length t))
                        (match q_limit q with Some l => l | None => 10 end)))
                  None).
Proof.
  unfold get_api_files.
  destruct (whereClause (search q)) as [w|] eqn:Hw.
  - left. rewrite count_query_where. destruct (select_page t _ _ _); reflexivity.
  - destruct (select_page t None _ _) as [rows|] eqn:Hsel; [|left; reflexivity].
    right. exists rows. split; [reflexivity|]. split; [reflexivity|].
    now rewrite count_query_plain.
Qed.

(** C1. The claim fails for a search that matches a record.  Over a catalog
    of two records, one of which contains [q1] in its custom name, the
    request for page 1 of size 10 with the search [q1] is answered by the
    [catch] block: status 500, no record, [total] 0 and [totalPages] 0,
    where the claim wants [total] 1 and [totalPages] 1, the ceiling of
    1/10.  The page query of the same request does select the record. *)
Theorem search_total_is_lost :
  List.length (filter (spec_search_match "q1") [q1_report; sample_row 2 "Alpha" "a.pdf"])
  = 1%nat
  /\ Math_ceil_div 1 10 = 1
  /\ select_page [q1_report; sample_row 2 "Alpha" "a.pdf"] (whereClause (Some "q1")) 10 0
     = Some [q1_report]
  /\ count_query [q1_report; sample_row 2 "Alpha" "a.pdf"] true ["%q1%"] = None
  /\ get_api_files [q1_report; sample_row 2 "Alpha" "a.pdf"]
       (mkFilesQuery (Some "q1") (Some 1) (Some 10))
     = (500, FilesResponse.mk false [] (mkPagination 1 10 0 0)
               (Some "Erro ao carregar arquivos")).
Proof. repeat split; vm_compute; reflexivity. Qed.

(** C8. Whatever the catalog and the request, the records of the answer are
    the image, in order, of rows of the catalog that are sorted by
    [upload_date], newest first, and they carry these instants.  A request
    without search text for a page [p >= 1] of size [s >= 1], with page,
    size and offset safe integers, is answered 200 with rows
    [(p - 1) * s + 1] to [p * s] of the whole catalog in that order; an
    answer other than 200 is the one of the [catch] block, which holds no
    record. *)
Theorem listing_newest_first (t : Table) (q : FilesQuery) :
  (exists rows,
     FilesResponse.files (snd (get_api_files t q)) = map uploaded_of_row rows
     /\ map uploadDate (FilesResponse.files (snd (get_api_files t q)))
        = map upload_date rows
     /\ StronglySorted newer_first rows
     /\ (forall r, In r rows -> In r t))
  /\ (forall p s,
        whereClause (search q) = None -> q_page q = Some p -> q_limit q = Some s ->
        1 <= p <= MAX_SAFE_INTEGER -> 1 <= s <= MAX_SAFE_INTEGER ->
        (p - 1) * s <= MAX_SAFE_INTEGER ->
        get_api_files t q =
        (200,
         FilesResponse.mk true
           (map uploaded_of_row
              (firstn (Z.to_nat s)
                 (skipn (Z.to_nat ((p - 1) * s)) (order_by_upload_date_desc t))))
           (mkPagination p s (Z.of_nat (List.length t))
              (Math_ceil_div (Z.of_nat (List.length t)) s))
           None))
  /\ (fst (get_api_files t q) <> 200 -> get_api_files t q = listing_failed)
  /\ StronglySorted newer_first (order_by_upload_date_desc t).
Proof.
  split; [|split; [|split]].
  - destruct (get_api_files_rows t q) as [E|[rows [Hsel [_ E]]]].
    + exists []. rewrite E. repeat split; [constructor|intros r []].
    + exists rows. rewrite E. cbn [snd FilesResponse.files].
      split; [reflexivity|]. split; [now rewrite map_map|].
      split; [eapply select_page_sorted; eauto|].
      intros r Hr. eapply select_page_In; eauto.
  - intros p s Hw Hp Hl H1 H2 H3. destruct q as [srch pg lm].
    cbn [search q_page q_limit] in *. subst pg lm.
    unfold MAX_SAFE_INTEGER in *. apply get_api_files_valid; (assumption || lia).
  - intros H. destruct (get_api_files_rows t q) as [E|[rows [_ [_ E]]]];
      [exact E|].
    rewrite E in H. now elim H.
  - apply order_by_sorted.
Qed.

(** C10. A [search] parameter that is the empty string is falsy: the
    handler builds no WHERE clause, so the whole answer (records and
    pagination) is that of the request without [search]; every row of the
    catalog is eligible and the count reported is the size of the catalog. *)
Theorem empty_search_is_no_filter (t : Table) (pg lm : option Z) :
  get_api_files t (mkFilesQuery (Some "") pg lm) =
  get_api_files t (mkFilesQuery None pg lm)
  /\ whereClause (Some "") = None
  /\ filter (where_holds (whereClause (Some ""))) t = t
  /\ select_count t (whereClause (Some "")) = Z.of_nat (List.length t).
Proof.
  split; [reflexivity|]. split; [reflexivity|].
  split; [apply where_none|].
  unfold select_count. simpl. now rewrite where_none.
Qed.

(** ** formatFileSize *)

Lemma formatFileSize_examples :
  formatFileSize 0 = "0 Bytes"
  /\ formatFileSize 1536 = "1.5 KB"
  /\ formatFileSize (10 * 1024 * 1024) = "10 MB".
Proof. repeat split; vm_compute; reflexivity. Qed.

Lemma k_pow (i : Z) : 0 <= i -> k ^ i = 2 ^ (10 * i).
Proof.
  intros Hi. unfold k. change 1024 with (2 ^ 10).
  rewrite <- Z.pow_mul_r by lia. reflexivity.
Qed.

(** The exponent picked by the logarithm is the largest power of 1024 that
    does not exceed the byte count. *)
Lemma log_k_floor_spec (bytes : Z) :
  1 <= bytes ->
  0 <= log_k_floor bytes
  /\ k ^ log_k_floor bytes <= bytes < k ^ (log_k_floor bytes + 1).
Proof.
  intros Hb. unfold log_k_floor. change (Z.log2 k) with 10.
  pose proof (Z.log2_nonneg bytes) as Hn.
  destruct (Z.log2_spec bytes ltac:(lia)) as [Hlo Hhi].
  pose proof (Z.div_mod (Z.log2 bytes) 10 ltac:(lia)) as D.
  pose proof (Z.mod_pos_bound (Z.log2 bytes) 10 ltac:(lia)) as M.
  assert (Hi : 0 <= Z.log2 bytes / 10) by (apply Z.div_pos; lia).
  split; [exact Hi|].
  rewrite !k_pow by lia. split.
  - eapply Z.le_trans; [|exact Hlo].
    apply Z.pow_le_mono_r; lia.
  - eapply Z.lt_le_trans; [exact Hhi|].
    apply Z.pow_le_mono_r; lia.
Qed.

(** [toFixed(2)] rounds to the nearest hundredth. *)
Lemma toFixed2_nearest (bytes d : Z) :
  0 < d ->
  2 * d * toFixed2 bytes d - d <= 200 * bytes < 2 * d * toFixed2 bytes d + d.
Proof.
  intros Hd. unfold toFixed2.
  pose proof (Z.div_mod (200 * bytes + d) (2 * d) ltac:(lia)) as D.
  pose proof (Z.mod_pos_bound (200 * bytes + d) (2 * d) ltac:(lia)) as M.
  lia.
Qed.

(** Below 1024^4 bytes the rendering is the one the units table intends:
    the value in the largest unit not above the byte count, rounded to two
    decimals, followed by that unit. *)
Lemma formatFileSize_units (bytes : Z) :
  1 <= bytes < k ^ 4 ->
  exists i unit,
    nth_error sizes (Z.to_nat i) = Some unit
    /\ 0 <= i < 4
    /\ k ^ i <= bytes < k ^ (i + 1)
    /\ formatFileSize bytes = number_text (toFixed2 bytes (k ^ i)) ++ " " ++ unit.
Proof.
  intros [Hlo Hhi].
  destruct (log_k_floor_spec bytes Hlo) as [Hi [Hl Hu]].
  assert (Hi4 : log_k_floor bytes < 4).
  { destruct (Z.lt_ge_cases (log_k_floor bytes) 4) as [|Hge]; [assumption|].
    exfalso.
    assert (k ^ 4 <= k ^ log_k_floor bytes)
      by (apply Z.pow_le_mono_r; unfold k; lia).
    lia. }
  unfold formatFileSize, formatFileSize_nonzero.
  destruct (bytes =? 0) eqn:E0; [apply Z.eqb_eq in E0; lia|].
  destruct (bytes <=? 0) eqn:E1; [apply Z.leb_le in E1; lia|].
  cbv zeta.
  exists (log_k_floor bytes).
  assert (Hcases : log_k_floor bytes = 0 \/ log_k_floor bytes = 1
                   \/ log_k_floor bytes = 2 \/ log_k_floor bytes = 3) by lia.
  destruct Hcases as [E|[E|[E|E]]]; rewrite E in *;
    eexists; (split; [reflexivity|]); (split; [lia|]); (split; [lia|]);
    reflexivity.
Qed.

(** C7. Beyond the last entry of the units table the function does not
    fall back to GB: 2 TiB is rendered with the text [undefined] in place
    of a unit. *)
Theorem formatFileSize_beyond_table :
  formatFileSize 2199023255552 = "2 undefined"
  /\ log_k_floor 2199023255552 = 4
  /\ nth_error sizes 4 = None.
Proof. repeat split; vm_compute; reflexivity. Qed.

(** ** Deletion *)

Lemma has_id_true (u : string) (r : Row) : has_id u r = true <-> id r = u.
Proof. unfold has_id. apply String.eqb_eq. Qed.

Lemma has_id_false (u : string) (r : Row) : has_id u r = false <-> id r <> u.
Proof. unfold has_id. apply String.eqb_neq. Qed.

Lemma filter_none (A : Type) (f : A -> bool) (l : list A) :
  (forall x, In x l -> f x = false) -> filter f l = [].
Proof.
  induction l as [|a l IH]; simpl; intros H; [reflexivity|].
  rewrite (H a) by auto. apply IH. auto.
Qed.

Lemma filter_keep (A : Type) (f : A -> bool) (l : list A) :
  (forall x, In x l -> f x = true) -> filter f l = l.
Proof.
  induction l as [|a l IH]; simpl; intros H; [reflexivity|].
  rewrite (H a) by auto. f_equal. apply IH. auto.
Qed.

Lemma filter_some (A : Type) (f : A -> bool) (l : list A) (x : A) :
  In x l -> f x = true -> exists y ys, filter f l = y :: ys.
Proof.
  intros Hin Hf.
  assert (H : In x (filter f l)) by (apply filter_In; auto).
  destruct (filter f l) as [|y ys]; [destruct H|eauto].
Qed.

Lemma existsSync_In (d : Disk) (p : string) : existsSync d p = true <-> In p d.
Proof.
  unfold existsSync. rewrite existsb_exists. split.
  - intros [q [Hq E]]. apply String.eqb_eq in E. now subst.
  - intros H. exists p. split; [exact H|apply String.eqb_refl].
Qed.

Lemma unlinkSync_In (d : Disk) (p q : string) :
  In q (unlinkSync d p) <-> In q d /\ q <> p.
Proof.
  unfold unlinkSync. rewrite filter_In. split.
  - intros [H E]. split; [exact H|].
    intros ->. rewrite String.eqb_refl in E. discriminate.
  - intros [H N]. split; [exact H|].
    destruct (String.eqb p q) eqn:E; [|reflexivity].
    apply String.eqb_eq in E. congruence.
Qed.

Lemma writeFile_In (d : Disk) (p q : string) :
  In q (writeFile d p) <-> q = p \/ In q d.
Proof.
  unfold writeFile. destruct (existsSync d p) eqn:E.
  - apply existsSync_In in E. split; [auto|]. intros [->|H]; assumption.
  - simpl. split; intros [H|H]; auto.
Qed.

(** C5. When the catalog holds a record with the requested id, the delete
    handler answers 200 with [success], whatever the upload directory
    holds; afterwards no row of the catalog has that id (the other rows are
    untouched), so the lookup of the download route answers 404 and no
    listing shows the record; the blob of the deleted record is no longer
    in the upload directory, and a blob that was already absent changes
    neither the answer nor the directory. *)
Theorem delete_existing_record (st : State) (x u : string) (row : Row) :
  uuid_in x = Some u -> In row (pdf_files st) -> id row = u ->
  exists file,
    hd_error (filter (has_id u) (pdf_files st)) = Some file
    /\ fst (snd (delete_api_files st x)) = 200
    /\ DeleteResponse.success (snd (snd (delete_api_files st x))) = true
    /\ pdf_files (fst (delete_api_files st x)) =
         filter (fun r => negb (has_id u r)) (pdf_files st)
    /\ (forall r, In r (pdf_files (fst (delete_api_files st x))) -> id r <> u)
    /\ download_lookup (pdf_files (fst (delete_api_files st x))) x = inl 404
    /\ (forall w l o rows r,
          select_page (pdf_files (fst (delete_api_files st x))) w l o = Some rows ->
          In r rows -> id r <> u)
    /\ (forall p, In p (uploads (fst (delete_api_files st x))) <->
                  In p (uploads st) /\ p <> file_path file)
    /\ (existsSync (uploads st) (file_path file) = false ->
        uploads (fst (delete_api_files st x)) = uploads st).
Proof.
  intros Hx Hin Hid.
  destruct (filter_some Row (has_id u) (pdf_files st) row Hin
              (proj2 (has_id_true u row) Hid)) as [file [rest Hf]].
  exists file.
  assert (Hgone : forall r,
             In r (filter (fun r => negb (has_id u r)) (pdf_files st)) ->
             id r <> u).
  { intros r Hr. apply (proj1 (filter_In _ _ _)) in Hr. destruct Hr as [_ Hr].
    apply has_id_false. now destruct (has_id u r). }
  unfold delete_api_files, select_by_id, delete_by_id.
  rewrite Hx, Hf. cbn [fst snd pdf_files uploads hd_error].
  split; [reflexivity|]. split; [reflexivity|]. split; [reflexivity|].
  split; [reflexivity|]. split; [exact Hgone|]. split.
  - unfold download_lookup, select_by_id. rewrite Hx.
    rewrite filter_none; [reflexivity|].
    intros r Hr. apply has_id_false. apply Hgone. exact Hr.
  - split.
    + intros w l o rows r Hsel Hr.
      apply Hgone. eapply select_page_In; eauto.
    + destruct (existsSync (uploads st) (file_path file)) eqn:E; split.
      * intros p. apply unlinkSync_In.
      * discriminate.
      * intros p. split; [|tauto].
        intros Hp. split; [exact Hp|].
        intros ->. apply (proj2 (existsSync_In _ _)) in Hp. congruence.
      * reflexivity.
Qed.

Lemma delete_existing_record_witness :
  exists file,
    hd_error (filter (has_id "3f2504e04f8941d39a0c0305e82c3311")
                (pdf_files (mkState [sample_row 1 "Q1-Report" "report.pdf"] []))) =
      Some file
    /\ fst (snd (delete_api_files (mkState [sample_row 1 "Q1-Report" "report.pdf"] [])
                   "3F2504E0-4F89-41D3-9A0C-0305E82C3311")) = 200.
Proof.
  destruct (delete_existing_record
              (mkState [sample_row 1 "Q1-Report" "report.pdf"] [])
              "3F2504E0-4F89-41D3-9A0C-0305E82C3311"
              "3f2504e04f8941d39a0c0305e82c3311"
              (sample_row 1 "Q1-Report" "report.pdf")
              eq_refl (or_introl eq_refl) eq_refl)
    as [file [H1 [H2 _]]].
  exists file. split; assumption.
Defined.

(** C6 (as amended). When no record has the requested id, the delete
    handler leaves catalog and upload directory as they were; it answers
    404 when the requested id is the text of a uuid, and 500 when it is
    not, because the lookup query is then rejected. *)
Theorem delete_unknown_id (st : State) (x : string) :
  (forall r, In r (pdf_files st) -> uuid_in x <> Some (id r)) ->
  fst (delete_api_files st x) = st
  /\ fst (snd (delete_api_files st x)) =
       match uuid_in x with Some _ => 404 | None => 500 end
  /\ DeleteResponse.success (snd (snd (delete_api_files st x))) = false.
Proof.
  intros Hno. unfold delete_api_files, select_by_id.
  destruct (uuid_in x) as [u|] eqn:Hx; [|repeat split].
  rewrite filter_none; [repeat split|].
  intros r Hr. apply has_id_false. intros E. apply (Hno r Hr). congruence.
Qed.

Lemma delete_unknown_id_witness :
  fst (delete_api_files (mkState [sample_row 1 "Q1-Report" "report.pdf"] [])
         "3f2504e0-4f89-41d3-9a0c-0305e82c3399")
  = mkState [sample_row 1 "Q1-Report" "report.pdf"] []
  /\ fst (snd (delete_api_files (mkState [sample_row 1 "Q1-Report" "report.pdf"] [])
                 "3f2504e0-4f89-41d3-9a0c-0305e82c3399")) = 404.
Proof.
  destruct (delete_unknown_id
              (mkState [sample_row 1 "Q1-Report" "report.pdf"] [])
              "3f2504e0-4f89-41d3-9a0c-0305e82c3399") as [H1 [H2 _]].
  - intros r [<-|[]]. vm_compute. discriminate.
  - split; [exact H1|exact H2].
Defined.

(** C6, counterexample.  The catalog holds one record and the requested id
    is [abc], which is the id of no record; the answer is 500, not 404. *)
Lemma delete_malformed_id_is_500 :
  (forall r, In r (pdf_files (mkState [sample_row 1 "Q1-Report" "report.pdf"] [])) ->
             uuid_in "abc" <> Some (id r) /\ uuid_out (id r) <> "abc" /\ id r <> "abc")
  /\ fst (snd (delete_api_files
                 (mkState [sample_row 1 "Q1-Report" "report.pdf"] []) "abc")) = 500
  /\ fst (snd (delete_api_files
                 (mkState [sample_row 1 "Q1-Report" "report.pdf"] []) "abc")) <> 404.
Proof.
  split.
  - intros r [<-|[]]. repeat split; vm_compute; discriminate.
  - split; [reflexivity|vm_compute; discriminate].
Qed.

(** ** Multer and the upload handler *)

Lemma fileFilter_In (m : string) : fileFilter m = true <-> In m allowedMimes.
Proof.
  unfold fileFilter. rewrite existsb_exists. split.
  - intros [a [Ha E]]. apply String.eqb_eq in E. now subst.
  - intros H. exists m. split; [exact H|apply String.eqb_refl].
Qed.

Lemma part_ok_false (cfg : Config) (p : Part) :
  part_ok cfg p = false <-> bad_part cfg p.
Proof.
  unfold part_ok, bad_part.
  destruct (String.eqb (fieldname p) "pdfFiles") eqn:E1.
  - apply String.eqb_eq in E1.
    destruct (fileFilter (part_mimetype p)) eqn:E2.
    + apply fileFilter_In in E2.
      destruct (MAX_FILE_SIZE cfg <? part_size p) eqn:E3; simpl.
      * apply Z.ltb_lt in E3. tauto.
      * apply Z.ltb_ge in E3. split; [discriminate|].
        intros [H|[H|H]]; [congruence|tauto|lia].
    + simpl. split; [|reflexivity]. intros _. right. left.
      intros H. apply fileFilter_In in H. congruence.
  - apply String.eqb_neq in E1. simpl. tauto.
Qed.

Lemma part_ok_true (cfg : Config) (p : Part) :
  part_ok cfg p = true -> ~ bad_part cfg p.
Proof.
  intros H B. apply part_ok_false in B. congruence.
Qed.

Lemma forallb_part_ok (cfg : Config) (parts : list Part) :
  forallb (part_ok cfg) parts = false <-> Exists (bad_part cfg) parts.
Proof.
  induction parts as [|p ps IH]; simpl.
  - split; [discriminate|]. intros H. inversion H.
  - rewrite Exists_cons, <- IH, <- part_ok_false.
    destruct (part_ok cfg p); simpl; intuition discriminate.
Qed.

Lemma multer_array_cons (cfg : Config) (n : nat) (p : Part) (rest : list Part)
    (d : Disk) :
  multer_array cfg (S n) (p :: rest) d =
  if negb (String.eqb (fieldname p) "pdfFiles") then (d, inl LIMIT_UNEXPECTED_FILE)
  else if negb (fileFilter (part_mimetype p)) then (d, inl filter_error)
  else if MAX_FILE_SIZE cfg <? part_size p then
    (unlinkSync (writeFile d (path (stored_file cfg p))) (path (stored_file cfg p)),
     inl LIMIT_FILE_SIZE)
  else
    match multer_array cfg n rest (writeFile d (path (stored_file cfg p))) with
    | (d2, inl e) => (unlinkSync d2 (path (stored_file cfg p)), inl e)
    | (d2, inr fs) => (d2, inr (stored_file cfg p :: fs))
    end.
Proof. reflexivity. Qed.

Lemma multer_array_accepts (cfg : Config) (parts : list Part) :
  forall (n : nat) (d : Disk),
    forallb (part_ok cfg) parts = true -> (List.length parts <= n)%nat ->
    exists d', multer_array cfg n parts d = (d', inr (map (stored_file cfg) parts)).
Proof.
  induction parts as [|p ps IH]; intros n d Hok Hlen.
  - exists d. reflexivity.
  - simpl in Hok, Hlen. apply andb_prop in Hok. destruct Hok as [Hp Hps].
    destruct n as [|n]; [lia|].
    unfold part_ok in Hp.
    apply andb_prop in Hp. destruct Hp as [Hp H3].
    apply andb_prop in Hp. destruct Hp as [H1 H2].
    rewrite multer_array_cons, H1, H2. cbn [negb].
    destruct (MAX_FILE_SIZE cfg <? part_size p); [discriminate|].
    destruct (IH n (writeFile d (path (stored_file cfg p))) Hps ltac:(lia))
      as [d' E].
    rewrite E. exists d'. reflexivity.
Qed.

Lemma multer_array_rejects (cfg : Config) (parts : list Part) :
  forall (n : nat) (d : Disk),
    forallb (part_ok cfg) parts = false \/ (n < List.length parts)%nat ->
    exists d' e, multer_array cfg n parts d = (d', inl e).
Proof.
  induction parts as [|p ps IH]; intros n d H.
  - destruct H as [H|H]; [discriminate|simpl in H; lia].
  - destruct n as [|n]; [simpl; eauto|].
    rewrite multer_array_cons.
    destruct (String.eqb (fieldname p) "pdfFiles") eqn:E1; cbn [negb]; [|eauto].
    destruct (fileFilter (part_mimetype p)) eqn:E2; cbn [negb]; [|eauto].
    destruct (MAX_FILE_SIZE cfg <? part_size p) eqn:E3; [eauto|].
    destruct (IH n (writeFile d (path (stored_file cfg p)))) as [d' [e E]].
    + destruct H as [H|H]; [left|right; simpl in H; lia].
      simpl in H. unfold part_ok in H. rewrite E1, E2, E3 in H. exact H.
    + rewrite E. eauto.
Qed.

Lemma multer_array_no_blob (cfg : Config) (parts : list Part) :
  forall (n : nat) (d d' : Disk) (e : UploadError),
    multer_array cfg n parts d = (d', inl e) ->
    forall q, In q d' -> In q d.
Proof.
  induction parts as [|p ps IH]; intros n d d' e H q Hq.
  - discriminate.
  - destruct n as [|n]; [injection H as <- _; exact Hq|].
    rewrite multer_array_cons in H.
    destruct (negb (String.eqb (fieldname p) "pdfFiles"));
      [injection H as <- _; exact Hq|].
    destruct (negb (fileFilter (part_mimetype p)));
      [injection H as <- _; exact Hq|].
    assert (Hback : forall d2,
               (forall q, In q d2 ->
                          In q (writeFile d (path (stored_file cfg p)))) ->
               In q (unlinkSync d2 (path (stored_file cfg p))) -> In q d).
    { intros d2 Hd2 Hin. apply (proj1 (unlinkSync_In _ _ _)) in Hin.
      destruct Hin as [Hin Hne]. apply Hd2 in Hin.
      apply (proj1 (writeFile_In _ _ _)) in Hin. tauto. }
    destruct (MAX_FILE_SIZE cfg <? part_size p).
    + injection H as <- _. apply (Hback _ (fun q H => H) Hq).
    + destruct (multer_array cfg n ps (writeFile d (path (stored_file cfg p))))
        as [d2 [e2|fs]] eqn:E; [|discriminate].
      injection H as <- _.
      apply (Hback d2); [|exact Hq].
      intros q' Hq'. eapply IH; eauto.
Qed.

Lemma multer_array_inr_disk (cfg : Config) (parts : list Part) :
  forall (n : nat) (d d' : Disk) (fs : list File),
    multer_array cfg n parts d = (d', inr fs) ->
    fs = map (stored_file cfg) parts
    /\ forallb (part_ok cfg) parts = true
    /\ (List.length parts <= n)%nat
    /\ (forall q, In q d -> In q d')
    /\ (forall p, In p parts -> In (path (stored_file cfg p)) d').
Proof.
  induction parts as [|p ps IH]; intros n d d' fs H.
  - injection H as <- <-.
    split; [reflexivity|]. split; [reflexivity|]. split; [simpl; lia|].
    split; [auto|]. intros p [].
  - destruct n as [|n]; [discriminate|].
    rewrite multer_array_cons in H.
    destruct (String.eqb (fieldname p) "pdfFiles") eqn:E1; [|discriminate].
    destruct (fileFilter (part_mimetype p)) eqn:E2; [|discriminate].
    cbn [negb] in H.
    destruct (MAX_FILE_SIZE cfg <? part_size p) eqn:E3; [discriminate|].
    destruct (multer_array cfg n ps (writeFile d (path (stored_file cfg p))))
      as [d2 [e|fs2]] eqn:E; [discriminate|].
    injection H as <- <-.
    destruct (IH _ _ _ _ E) as [-> [Hok [Hlen [Hd Hp]]]].
    split; [reflexivity|]. split.
    { simpl. unfold part_ok at 1. now rewrite E1, E2, E3. }
    split; [simpl; lia|]. split.
    + intros q Hq. apply Hd. apply writeFile_In. auto.
    + intros p' [<-|Hp']; [|auto].
      apply Hd. apply writeFile_In. auto.
Qed.

(** What an accepted request leaves in the directory is what was there and
    the files written for its parts. *)
Lemma multer_array_inr_back (cfg : Config) (parts : list Part) :
  forall (n : nat) (d d' : Disk) (fs : list File),
    multer_array cfg n parts d = (d', inr fs) ->
    forall q, In q d' -> In q d \/ exists f, In f fs /\ q = path f.
Proof.
  induction parts as [|p ps IH]; intros n d d' fs H q Hq.
  - injection H as <- <-. auto.
  - destruct n as [|n]; [discriminate|].
    rewrite multer_array_cons in H.
    destruct (negb (String.eqb (fieldname p) "pdfFiles")); [discriminate|].
    destruct (negb (fileFilter (part_mimetype p))); [discriminate|].
    destruct (MAX_FILE_SIZE cfg <? part_size p); [discriminate|].
    destruct (multer_array cfg n ps (writeFile d (path (stored_file cfg p))))
      as [d2 [e|fs2]] eqn:E; [discriminate|].
    injection H as <- <-.
    destruct (IH _ _ _ _ E q Hq) as [Hd|[f [Hf Ef]]].
    + apply (proj1 (writeFile_In _ _ _)) in Hd. destruct Hd as [->|Hd]; [|auto].
      right. exists (stored_file cfg p). split; [left|]; reflexivity.
    + right. exists f. split; [right; exact Hf|exact Ef].
Qed.

Lemma unlink_all_In (files : list File) (d : Disk) (q : string) :
  In q (fold_right (fun file d2 => unlinkSync d2 (path file)) d files)
  <-> In q d /\ forall f, In f files -> q <> path f.
Proof.
  induction files as [|f fs IH]; cbn [fold_right].
  - split; [intros H; split; [exact H|intros f []]|tauto].
  - rewrite unlinkSync_In, IH. split.
    + intros [[Hd Hfs] Hf]. split; [exact Hd|].
      intros g [<-|Hg]; auto.
    + intros [Hd H]. repeat split; auto.
      * intros g Hg. apply H. now right.
      * apply H. now left.
Qed.

(** An error of multer leaves no new file behind. *)
Lemma multer_stage_no_blob (cfg : Config) (req : UploadRequest) (d d' : Disk)
    (e : UploadError) :
  multer_stage cfg req d = (d', inl e) ->
  forall q, In q d' -> In q d.
Proof.
  unfold multer_stage.
  destruct (multer_array cfg 10 (req_parts req) d) as [d1 [e1|fs]] eqn:E.
  - intros [= <- _] q Hq. eapply multer_array_no_blob; eauto.
  - destruct (customNames req); try discriminate.
    intros [= <- _] q Hq.
    apply (proj1 (unlink_all_In _ _ _)) in Hq. destruct Hq as [Hq Hne].
    destruct (multer_array_inr_back _ _ _ _ _ _ E q Hq) as [Hd|[f [Hf Ef]]];
      [exact Hd|].
    exfalso. exact (Hne f Hf Ef).
Qed.

Lemma handleUploadError_400 (e : UploadError) :
  fst (handleUploadError e) = 400
  /\ UploadResponse.success (snd (handleUploadError e)) = false
  /\ UploadResponse.files (snd (handleUploadError e)) = [].
Proof.
  unfold handleUploadError.
  destruct (is_MulterError e && String.eqb (code e) "LIMIT_FILE_SIZE");
    repeat split.
Qed.

Lemma multer_stage_inl (cfg : Config) (req : UploadRequest) (d0 d : Disk)
    (e : UploadError) :
  multer_array cfg 10 (req_parts req) d0 = (d, inl e) ->
  multer_stage cfg req d0 = (d, inl e).
Proof. unfold multer_stage. intros ->. reflexivity. Qed.

Lemma multer_stage_inr (cfg : Config) (req : UploadRequest) (d0 d : Disk)
    (files : list File) :
  multer_array cfg 10 (req_parts req) d0 = (d, inr files) ->
  customNames req <> FieldValueTooLong ->
  multer_stage cfg req d0 = (d, inr files).
Proof.
  unfold multer_stage. intros -> H.
  destruct (customNames req); try reflexivity. congruence.
Qed.

Lemma multer_stage_too_long (cfg : Config) (req : UploadRequest) (d0 d : Disk)
    (files : list File) :
  multer_array cfg 10 (req_parts req) d0 = (d, inr files) ->
  customNames req = FieldValueTooLong ->
  multer_stage cfg req d0 =
  (fold_right (fun file d2 => unlinkSync d2 (path file)) d files,
   inl LIMIT_FIELD_VALUE).
Proof. unfold multer_stage. intros -> ->. reflexivity. Qed.

Lemma post_api_upload_failed (cfg : Config) (env : Env) (st : State)
    (req : UploadRequest) (d : Disk) (e : UploadError) :
  multer_stage cfg req (uploads st) = (d, inl e) ->
  post_api_upload cfg env st req = (mkState (pdf_files st) d, handleUploadError e).
Proof. unfold post_api_upload. intros ->. reflexivity. Qed.

Lemma post_api_upload_rejected (cfg : Config) (env : Env) (st : State)
    (req : UploadRequest) (d : Disk) (e : UploadError) :
  multer_array cfg 10 (req_parts req) (uploads st) = (d, inl e) ->
  post_api_upload cfg env st req = (mkState (pdf_files st) d, handleUploadError e).
Proof. intros H. apply post_api_upload_failed. now apply multer_stage_inl. Qed.

(** C4. When some item of the request has a MIME type outside
    [application/pdf], [application/x-pdf], or is larger than the configured
    maximum (10 MiB in the default configuration), the upload is answered 400 without success and without files,
    the catalog is unchanged, and the upload directory holds no path that
    it did not hold before. *)
Theorem invalid_item_rejected (cfg : Config) (env : Env) (st : State)
    (req : UploadRequest) (p : Part) :
  In p (req_parts req) ->
  ~ In (part_mimetype p) allowedMimes \/ MAX_FILE_SIZE cfg < part_size p ->
  MAX_FILE_SIZE default_config = 10 * 1024 * 1024
  /\ fst (snd (post_api_upload cfg env st req)) = 400
  /\ UploadResponse.success (snd (snd (post_api_upload cfg env st req))) = false
  /\ UploadResponse.files (snd (snd (post_api_upload cfg env st req))) = []
  /\ pdf_files (fst (post_api_upload cfg env st req)) = pdf_files st
  /\ (forall q, In q (uploads (fst (post_api_upload cfg env st req))) ->
                In q (uploads st)).
Proof.
  intros Hin Hbad.
  destruct (multer_array_rejects cfg (req_parts req) 10 (uploads st))
    as [d [e E]].
  { left. apply forallb_part_ok. apply Exists_exists. exists p.
    split; [exact Hin|]. unfold bad_part. tauto. }
  rewrite (post_api_upload_rejected cfg env st req d e E).
  destruct (handleUploadError_400 e) as [H1 [H2 H3]].
  cbn [fst snd pdf_files uploads].
  split; [reflexivity|].
  repeat split; try assumption.
  eapply multer_array_no_blob; eauto.
Qed.

Lemma invalid_item_rejected_witness :
  fst (snd (post_api_upload default_config sample_env empty_state
              (mkUploadRequest [sample_part "a.pdf" "application/pdf" 10;
                                sample_part "notes.txt" "text/plain" 10]
                               NoCustomNames))) = 400
  /\ pdf_files (fst (post_api_upload default_config sample_env empty_state
              (mkUploadRequest [sample_part "a.pdf" "application/pdf" 10;
                                sample_part "notes.txt" "text/plain" 10]
                               NoCustomNames))) = [].
Proof.
  destruct (invalid_item_rejected default_config sample_env empty_state
              (mkUploadRequest [sample_part "a.pdf" "application/pdf" 10;
                                sample_part "notes.txt" "text/plain" 10]
                               NoCustomNames)
              (sample_part "notes.txt" "text/plain" 10))
    as [_ [H1 [_ [_ [H4 _]]]]].
  - right. left. reflexivity.
  - left. simpl. intros [H|[H|[]]]; discriminate.
  - split; [exact H1|exact H4].
Defined.

Lemma append_nil_r (s : string) : s ++ "" = s.
Proof. induction s; simpl; congruence. Qed.

(** A text is its characters, one after the other. *)
Lemma join_chars (s : string) : join (chars s) = s.
Proof.
  induction s as [|c s IH]; [reflexivity|].
  cbn [chars]. destruct (continues s).
  - destruct (chars s) as [|ch rest]; cbn [join fold_right append] in *.
    + now rewrite <- IH.
    + now rewrite IH.
  - cbn [join fold_right append]. fold (join (chars s)). now rewrite IH.
Qed.

Lemma take_chars_all (n : nat) (s : string) :
  (char_length s <= n)%nat -> take_chars n s = s.
Proof.
  intros H. unfold take_chars. rewrite firstn_all2 by exact H. apply join_chars.
Qed.

Lemma varchar_take (n : nat) (s s' : string) :
  varchar n s = Some s' -> s' = take_chars n s.
Proof.
  unfold varchar. destruct (has_nul s); [discriminate|].
  destruct (char_length s <=? n)%nat eqn:E.
  - intros [= <-]. apply Nat.leb_le in E. symmetry. now apply take_chars_all.
  - destruct (all_spaces (drop_chars n s)); [|discriminate]. now intros [= <-].
Qed.

Lemma insert_pdf_file_some (now : Z) (t t1 : Table) (p1 p2 p3 p4 p5 : string)
    (p6 : Z) (p7 : string) (r : Row) :
  insert_pdf_file now t p1 p2 p3 p4 p5 p6 p7 = Some (t1, r) ->
  t1 = (t ++ [r])%list
  /\ uuid_in p1 = Some (id r)
  /\ custom_name r = take_chars 255 p2
  /\ original_name r = take_chars 255 p3
  /\ (forall x, In x t -> id x <> id r).
Proof.
  unfold insert_pdf_file.
  destruct (uuid_in p1) as [u|]; [|discriminate].
  destruct (varchar 255 p2) as [cn|] eqn:E2; [|discriminate].
  destruct (varchar 255 p3) as [on|] eqn:E3; [|discriminate].
  destruct (varchar 255 p4) as [fn|]; [|discriminate].
  destruct (varchar 500 p5) as [fp|]; [|discriminate].
  destruct (bigint p6) as [sz|]; [|discriminate].
  destruct (varchar 100 p7) as [mt|]; [|discriminate].
  destruct (existsb (has_id u) t) eqn:Ex; [discriminate|].
  intros [= <- <-]. cbn [id custom_name original_name].
  split; [reflexivity|]. split; [reflexivity|].
  split; [now apply varchar_take|]. split; [now apply varchar_take|].
  intros x Hx Eq.
  assert (existsb (has_id u) t = true); [|congruence].
  apply existsb_exists. exists x. split; [exact Hx|]. now apply has_id_true.
Qed.

(** What the loop leaves behind: the rows it appended, one per file when it
    ran to the end, fewer when a query was rejected on the way. *)
Lemma upload_loop_rows (env : Env) (names : list string) (files : list File) :
  forall (i : nat) (t t' : Table) (res : option (list UploadedFile)),
    upload_loop env i files names t = (t', res) ->
    exists rows,
      t' = (t ++ rows)%list
      /\ match res with
         | Some results =>
             List.length rows = List.length files
             /\ List.length results = List.length files
             /\ forall j file,
                 nth_error files j = Some file ->
                 exists row,
                   nth_error rows j = Some row
                   /\ custom_name row =
                        take_chars 255 (customName_of names (i + j) file)
                   /\ original_name row = take_chars 255 (originalname file)
         | None => (List.length rows < List.length files)%nat
         end.
Proof.
  induction files as [|file rest IH]; intros i t t' res H; simpl in H.
  - injection H as <- <-. exists []. rewrite app_nil_r.
    split; [reflexivity|]. split; [reflexivity|]. split; [reflexivity|].
    intros [|j] f Hj; discriminate.
  - destruct (insert_pdf_file (CURRENT_TIMESTAMP env i) t (uuidv4 env i)
                (customName_of names i file) (originalname file) (filename file)
                (path file) (size file) (mimetype file))
      as [[t1 r]|] eqn:Ins.
    + apply insert_pdf_file_some in Ins.
      destruct Ins as [-> [_ [Hcn [Hon _]]]].
      destruct (upload_loop env (S i) rest names (t ++ [r])%list) as [t2 res2] eqn:L.
      destruct (IH _ _ _ _ L) as [rows [-> Hrows]].
      exists (r :: rows).
      destruct res2 as [results|]; injection H as <- <-;
        rewrite <- app_assoc.
      * destruct Hrows as [Hl [Hr Hnth]].
        split; [reflexivity|]. simpl.
        split; [congruence|]. split; [congruence|].
        intros [|j] f Hj; simpl in Hj.
        -- injection Hj as <-. exists r. rewrite Nat.add_0_r. simpl. auto.
        -- destruct (Hnth j f Hj) as [row [H1 [H2 H3]]].
           exists row. simpl. rewrite <- Nat.add_succ_comm. auto.
      * split; [reflexivity|]. simpl. lia.
    + injection H as <- <-. exists []. rewrite app_nil_r.
      split; [reflexivity|]. simpl. lia.
Qed.

Lemma upload_handler_status (env : Env) (files : list File) (cns : CustomNames)
    (t : Table) :
  fst (snd (upload_handler env files cns t)) = 400
  <-> files = [] \/ cns = InvalidJson.
Proof.
  unfold upload_handler. destruct files as [|f fs].
  - simpl. tauto.
  - destruct cns as [| | |a|];
      try (destruct (upload_loop env 0 (f :: fs) _ t) as [t' [results|]]);
      simpl; split; try tauto; try discriminate;
      intros [H|H]; discriminate.
Qed.

(** The three ways the route handler ends. *)
Lemma upload_handler_outcome (env : Env) (files : list File) (cns : CustomNames)
    (t : Table) :
  (fst (snd (upload_handler env files cns t)) = 400
   /\ fst (upload_handler env files cns t) = t)
  \/ (fst (snd (upload_handler env files cns t)) = 200
      /\ upload_loop env 0 files (names_of cns) t =
           (fst (upload_handler env files cns t),
            Some (UploadResponse.files (snd (snd (upload_handler env files cns t))))))
  \/ (fst (snd (upload_handler env files cns t)) = 500
      /\ exists rows,
           fst (upload_handler env files cns t) = (t ++ rows)%list
           /\ (List.length rows < List.length files)%nat).
Proof.
  unfold upload_handler. destruct files as [|f fs]; [left; split; reflexivity|].
  destruct cns as [| | |a|]; cbn [names_of].
  2: { left. split; reflexivity. }
  2: { right. right. split; [reflexivity|]. exists [].
       rewrite app_nil_r. split; [reflexivity|simpl; lia]. }
  all: destruct (upload_loop env 0 (f :: fs) _ t) as [t' [results|]] eqn:L;
    [right; left; split; reflexivity|].
  all: right; right; split; [reflexivity|];
    destruct (upload_loop_rows _ _ _ _ _ _ _ L) as [rows [Hr Hl]];
    exists rows; split; [exact Hr|exact Hl].
Qed.

(** With custom names that are absent or an array, the handler's answer
    is decided by the loop. *)
Lemma upload_handler_loop (env : Env) (files : list File) (cns : CustomNames)
    (t : Table) :
  files <> [] -> cns <> InvalidJson -> cns <> NullJson ->
  match upload_loop env 0 files (names_of cns) t with
  | (t', Some results) =>
      fst (upload_handler env files cns t) = t'
      /\ fst (snd (upload_handler env files cns t)) = 200
      /\ UploadResponse.files (snd (snd (upload_handler env files cns t))) = results
  | (t', None) =>
      fst (upload_handler env files cns t) = t'
      /\ fst (snd (upload_handler env files cns t)) = 500
  end.
Proof.
  intros Hf H1 H2. unfold upload_handler.
  destruct files as [|f fs]; [congruence|].
  destruct cns as [| | |a|]; try congruence; cbn [names_of];
    destruct (upload_loop env 0 (f :: fs) _ t) as [t' [results|]];
    repeat split.
Qed.

Lemma multer_decide (cfg : Config) (parts : list Part) :
  (~ multer_rejects cfg parts
   /\ forallb (part_ok cfg) parts = true /\ (List.length parts <= 10)%nat)
  \/ (multer_rejects cfg parts
      /\ (forallb (part_ok cfg) parts = false \/ (10 < List.length parts)%nat)).
Proof.
  unfold multer_rejects.
  destruct (forallb (part_ok cfg) parts) eqn:E.
  - destruct (Nat.le_gt_cases (List.length parts) 10) as [L|L].
    + left. split; [|auto]. intros [H|H]; [lia|].
      apply forallb_part_ok in H. congruence.
    + right. auto.
  - right. split; [right; now apply forallb_part_ok|auto].
Qed.

Lemma multer_stage_inr_inv (cfg : Config) (req : UploadRequest) (d0 d : Disk)
    (files : list File) :
  multer_stage cfg req d0 = (d, inr files) ->
  multer_array cfg 10 (req_parts req) d0 = (d, inr files)
  /\ customNames req <> FieldValueTooLong.
Proof.
  unfold multer_stage.
  destruct (multer_array cfg 10 (req_parts req) d0) as [d1 [e|fs]];
    [discriminate|].
  destruct (customNames req); intros [= <- <-]; split;
    try reflexivity; discriminate.
Qed.

Lemma post_api_upload_accepted (cfg : Config) (env : Env) (st : State)
    (req : UploadRequest) (d : Disk) (files : list File) :
  multer_stage cfg req (uploads st) = (d, inr files) ->
  post_api_upload cfg env st req =
  (mkState (fst (upload_handler env files (customNames req) (pdf_files st))) d,
   snd (upload_handler env files (customNames req) (pdf_files st))).
Proof.
  unfold post_api_upload. intros ->.
  destruct (upload_handler env files (customNames req) (pdf_files st)).
  reflexivity.
Qed.

Lemma map_eq_nil_iff (A B : Type) (f : A -> B) (l : list A) :
  map f l = [] <-> l = [].
Proof. destruct l; simpl; split; intros H; try reflexivity; discriminate. Qed.

(** Multer reports an error exactly for a request that holds more than ten
    parts or a part that is at fault, or whose custom-names field is too
    long. *)
Lemma multer_fails_iff (cfg : Config) (req : UploadRequest) (d : Disk) :
  multer_fails cfg req d
  <-> multer_rejects cfg (req_parts req) \/ customNames req = FieldValueTooLong.
Proof.
  unfold multer_fails.
  destruct (multer_decide cfg (req_parts req)) as [[Hno [Hok Hlen]]|[Hrej Hwhy]].
  - destruct (multer_array_accepts cfg (req_parts req) 10 d Hok Hlen) as [d1 E].
    split.
    + intros [d' [e H]]. right.
      destruct (customNames req) eqn:Ec; try reflexivity;
        rewrite (multer_stage_inr cfg req d d1 _ E) in H by congruence;
        discriminate.
    + intros [H|H]; [contradiction|].
      rewrite (multer_stage_too_long cfg req d d1 _ E H). eauto.
  - destruct (multer_array_rejects cfg (req_parts req) 10 d Hwhy) as [d1 [e E]].
    split; [auto|]. intros _.
    rewrite (multer_stage_inl cfg req d d1 e E). eauto.
Qed.

(** The loop ends in an exception exactly when some insert is rejected
    after the inserts of the turns before it. *)
Lemma upload_loop_none_iff (env : Env) (names : list string) (files : list File) :
  forall (i : nat) (t t' : Table),
    upload_loop env i files names t = (t', None)
    <-> exists k file results,
          nth_error files k = Some file
          /\ upload_loop env i (firstn k files) names t = (t', Some results)
          /\ insert_of env names (i + k) file t' = None.
Proof.
  induction files as [|file rest IH]; intros i t t'.
  - split; [discriminate|].
    intros [[|k] [f [res [H _]]]]; discriminate.
  - cbn [upload_loop]. fold (insert_of env names i file t).
    destruct (insert_of env names i file t) as [[t1 r]|] eqn:Ins.
    + destruct (upload_loop env (S i) rest names t1) as [t2 res2] eqn:L.
      split.
      * intros H.
        assert (E : res2 = None /\ t2 = t')
          by (destruct res2; inversion H; auto).
        destruct E as [-> ->].
        apply (proj1 (IH _ _ _)) in L.
        destruct L as [k [f [res [Hk [Hl Hi]]]]].
        exists (S k), f, (upload_result env i (customName_of names i file) file :: res).
        split; [exact Hk|]. split.
        -- cbn [firstn upload_loop]. fold (insert_of env names i file t).
           rewrite Ins, Hl. reflexivity.
        -- rewrite <- Nat.add_succ_comm. exact Hi.
      * intros [[|k] [f [res [Hk [Hl Hi]]]]].
        -- cbn [firstn upload_loop] in Hl. injection Hl as <- _.
           injection Hk as <-. rewrite Nat.add_0_r in Hi. congruence.
        -- cbn [firstn upload_loop nth_error] in Hl, Hk.
           fold (insert_of env names i file t) in Hl. rewrite Ins in Hl.
           destruct (upload_loop env (S i) (firstn k rest) names t1)
             as [t3 [res3|]] eqn:L3; [|discriminate].
           injection Hl as <- _.
           rewrite <- Nat.add_succ_comm in Hi.
           assert (L' : upload_loop env (S i) rest names t1 = (t3, None)).
           { apply IH. exists k, f, res3. auto. }
           rewrite L' in L. injection L as <- <-. reflexivity.
    + split.
      * intros [= <-]. exists 0%nat, file, [].
        split; [reflexivity|]. split; [reflexivity|].
        now rewrite Nat.add_0_r.
      * intros [[|k] [f [res [Hk [Hl Hi]]]]].
        -- cbn [firstn upload_loop] in Hl. now injection Hl as <- _.
        -- cbn [firstn upload_loop] in Hl.
           fold (insert_of env names i file t) in Hl. rewrite Ins in Hl.
           discriminate.
Qed.

(** A loop that ran to the end: every turn's insert was accepted, into the
    table that the turns before it had made. *)
Lemma upload_loop_some (env : Env) (names : list string) (files : list File) :
  forall (i : nat) (t t' : Table) (results : list UploadedFile),
    upload_loop env i files names t = (t', Some results) ->
    exists rows,
      t' = (t ++ rows)%list
      /\ List.length rows = List.length files
      /\ List.length results = List.length files
      /\ forall k file,
          nth_error files k = Some file ->
          exists row,
            nth_error rows k = Some row
            /\ insert_of env names (i + k) file (t ++ firstn k rows)%list
               = Some ((t ++ firstn (S k) rows)%list, row).
Proof.
  induction files as [|file rest IH]; intros i t t' results H; cbn [upload_loop] in H.
  - injection H as <- <-. exists []. rewrite app_nil_r.
    split; [reflexivity|]. split; [reflexivity|]. split; [reflexivity|].
    intros [|k] f Hk; discriminate.
  - fold (insert_of env names i file t) in H.
    destruct (insert_of env names i file t) as [[t1 r]|] eqn:Ins; [|discriminate].
    assert (Et1 : t1 = (t ++ [r])%list).
    { unfold insert_of in Ins. now apply insert_pdf_file_some in Ins. }
    subst t1.
    destruct (upload_loop env (S i) rest names (t ++ [r])%list) as [t2 [res2|]] eqn:L;
      [|discriminate].
    injection H as <- <-.
    destruct (IH _ _ _ _ L) as [rows [-> [Hl [Hr Hnth]]]].
    exists (r :: rows). rewrite <- app_assoc.
    split; [reflexivity|]. split; [simpl; congruence|]. split; [simpl; congruence|].
    intros [|k] f Hk; cbn [nth_error] in Hk.
    + injection Hk as <-. exists r. split; [reflexivity|].
      rewrite Nat.add_0_r. cbn [firstn]. rewrite app_nil_r. exact Ins.
    + destruct (Hnth k f Hk) as [row [Hrow Hi]].
      exists row. split; [exact Hrow|].
      rewrite <- Nat.add_succ_comm.
      cbn [firstn]. rewrite <- !app_assoc in Hi. exact Hi.
Qed.

Lemma Exists_or3 (A : Type) (P Q R : A -> Prop) (l : list A) :
  Exists (fun x => P x \/ Q x \/ R x) l -> Exists P l \/ Exists Q l \/ Exists R l.
Proof.
  induction 1 as [x l [H|[H|H]]|x l _ [IH|[IH|IH]]]; auto.
Qed.

(** C9 (as amended). The upload is answered 400 exactly when multer
    reports an error for the request, or the request holds no file, or
    [JSON.parse] fails on the custom names; the catalog is then unchanged.
    Multer reports an error whenever the request holds more than ten
    parts, a part in another field, a MIME type outside the allowed set
    or a part above the size limit, or its custom-names field is above the
    size allowed for a field; and it reports one only for a request that
    holds such a part, a part of the size limit or more, or such a field.
    Every other request whose custom names are absent or an array is
    answered 200 or 500: 200 exactly when no insert of the loop is
    rejected, with one entry and one row per item, each turn's insert
    being accepted into the catalog that the earlier turns made; 500
    exactly when the insert of some turn is rejected, and then the rows of
    the turns before it are in the catalog and no other. *)
Theorem upload_400_exactly (cfg : Config) (env : Env) (st : State)
    (req : UploadRequest) :
  (fst (snd (post_api_upload cfg env st req)) = 400 <->
   multer_fails cfg req (uploads st) \/ req_parts req = []
   \/ customNames req = InvalidJson)
  /\ (multer_rejects cfg (req_parts req) \/ customNames req = FieldValueTooLong ->
      multer_fails cfg req (uploads st))
  /\ (multer_fails cfg req (uploads st) ->
      (10 < List.length (req_parts req))%nat
      \/ Exists (fun p => fieldname p <> "pdfFiles") (req_parts req)
      \/ Exists (fun p => ~ In (part_mimetype p) allowedMimes) (req_parts req)
      \/ Exists (fun p => MAX_FILE_SIZE cfg <= part_size p) (req_parts req)
      \/ customNames req = FieldValueTooLong)
  /\ (fst (snd (post_api_upload cfg env st req)) = 400 ->
      pdf_files (fst (post_api_upload cfg env st req)) = pdf_files st)
  /\ (fst (snd (post_api_upload cfg env st req)) <> 400 ->
      customNames req <> NullJson ->
      (fst (snd (post_api_upload cfg env st req)) = 200
       <-> forall k t',
             ~ rejected_at env (names_of (customNames req))
                 (map (stored_file cfg) (req_parts req)) (pdf_files st) t' k)
      /\ (fst (snd (post_api_upload cfg env st req)) = 500
          <-> exists k,
                rejected_at env (names_of (customNames req))
                  (map (stored_file cfg) (req_parts req)) (pdf_files st)
                  (pdf_files (fst (post_api_upload cfg env st req))) k)
      /\ (fst (snd (post_api_upload cfg env st req)) = 200 ->
          List.length (UploadResponse.files (snd (snd (post_api_upload cfg env st req))))
          = List.length (req_parts req)
          /\ exists rows,
               pdf_files (fst (post_api_upload cfg env st req))
               = (pdf_files st ++ rows)%list
               /\ List.length rows = List.length (req_parts req)
               /\ forall k p,
                   nth_error (req_parts req) k = Some p ->
                   exists row,
                     nth_error rows k = Some row
                     /\ insert_of env (names_of (customNames req)) k
                          (stored_file cfg p) (pdf_files st ++ firstn k rows)%list
                        = Some ((pdf_files st ++ firstn (S k) rows)%list, row))
      /\ (fst (snd (post_api_upload cfg env st req)) = 500 ->
          exists rows,
            pdf_files (fst (post_api_upload cfg env st req))
            = (pdf_files st ++ rows)%list
            /\ (List.length rows < List.length (req_parts req))%nat)).
Proof.
  split; [|split; [apply multer_fails_iff|split]].
  2: { intros H. apply multer_fails_iff in H.
       destruct H as [[H|H]|H]; [auto| |tauto].
       apply Exists_or3 in H. destruct H as [H|[H|H]]; [tauto|tauto|].
       right. right. right. left.
       apply Exists_exists in H. destruct H as [p [Hp Hs]].
       apply Exists_exists. exists p. split; [exact Hp|lia]. }
  - destruct (multer_stage cfg req (uploads st)) as [d [e|fs]] eqn:E.
    + rewrite (post_api_upload_failed cfg env st req d e E).
      destruct (handleUploadError_400 e) as [H1 _]. cbn [fst snd].
      split; [|intros _; exact H1].
      intros _. left. unfold multer_fails. eauto.
    + rewrite (post_api_upload_accepted cfg env st req d _ E). cbn [fst snd].
      destruct (multer_stage_inr_inv _ _ _ _ _ E) as [Ea _].
      destruct (multer_array_inr_disk _ _ _ _ _ _ Ea) as [-> _].
      rewrite upload_handler_status, map_eq_nil_iff.
      split; [tauto|]. intros [[d' [e' H]]|H]; [congruence|exact H].
  - destruct (multer_stage cfg req (uploads st)) as [d [e|fs]] eqn:E.
    + rewrite (post_api_upload_failed cfg env st req d e E).
      destruct (handleUploadError_400 e) as [H1 _]. cbn [fst snd pdf_files].
      split; [reflexivity|]. intros H. congruence.
    + rewrite (post_api_upload_accepted cfg env st req d _ E).
      cbn [fst snd pdf_files].
      destruct (multer_stage_inr_inv _ _ _ _ _ E) as [Ea _].
      destruct (multer_array_inr_disk _ _ _ _ _ _ Ea) as [-> _].
      set (files := map (stored_file cfg) (req_parts req)).
      set (names := names_of (customNames req)).
      split.
      { intros H400.
        destruct (upload_handler_outcome env files (customNames req) (pdf_files st))
          as [[_ H]|[[H _]|[H _]]]; [exact H|congruence|congruence]. }
      intros Hn400 Hnull.
      assert (Hf : files <> [] /\ customNames req <> InvalidJson).
      { split; intros H; apply Hn400; apply upload_handler_status; auto. }
      destruct Hf as [Hf Hj].
      pose proof (upload_handler_loop env files (customNames req) (pdf_files st)
                    Hf Hj Hnull) as Hloop.
      fold names in Hloop.
      destruct (upload_loop env 0 files names (pdf_files st)) as [t' [results|]] eqn:L.
      * destruct Hloop as [Ht [Hs Hr]]. rewrite Ht, Hs, Hr.
        destruct (upload_loop_some _ _ _ _ _ _ _ L) as [rows [Hrows [Hl1 [Hl2 Hnth]]]].
        unfold files in Hl1, Hl2. rewrite length_map in Hl1, Hl2.
        split; [|split; [|split]].
        -- split; [|reflexivity]. intros _ k t'' [file [res [Hk [Hp Hi]]]].
           assert (N : upload_loop env 0 files names (pdf_files st) = (t'', None)).
           { apply upload_loop_none_iff. exists k, file, res. auto. }
           congruence.
        -- split; [discriminate|]. intros [k [file [res [Hk [Hp Hi]]]]].
           assert (N : upload_loop env 0 files names (pdf_files st) = (t', None)).
           { apply upload_loop_none_iff. exists k, file, res. auto. }
           congruence.
        -- intros _. split; [exact Hl2|].
           exists rows. split; [exact Hrows|]. split; [exact Hl1|].
           intros k p Hp.
           apply (Hnth k (stored_file cfg p)).
           unfold files. now rewrite nth_error_map, Hp.
        -- discriminate.
      * destruct Hloop as [Ht Hs]. rewrite Ht, Hs.
        pose proof (proj1 (upload_loop_none_iff _ _ _ _ _ _) L) as [k [file [res R]]].
        split; [|split; [|split]].
        -- split; [discriminate|]. intros H. exfalso.
           apply (H k t'). exists file, res. exact R.
        -- split; [|reflexivity]. intros _. exists k, file, res. exact R.
        -- discriminate.
        -- intros _.
           destruct (upload_loop_rows _ _ _ _ _ _ _ L) as [rows [Hrows Hlen]].
           unfold files in Hlen. rewrite length_map in Hlen. eauto.
Qed.

(** C9, counterexample.  Two items, no custom names: the first is a PDF,
    the second is a text file.  The request has items and no malformed
    custom names, yet the call fails as a whole with 400 and the PDF is
    not recorded. *)
Lemma upload_400_for_one_bad_item :
  req_parts (mkUploadRequest [sample_part "a.pdf" "application/pdf" 10;
                              sample_part "notes.txt" "text/plain" 10]
                             NoCustomNames) <> []
  /\ customNames (mkUploadRequest [sample_part "a.pdf" "application/pdf" 10;
                                   sample_part "notes.txt" "text/plain" 10]
                                  NoCustomNames) <> InvalidJson
  /\ post_api_upload default_config sample_env empty_state
       (mkUploadRequest [sample_part "a.pdf" "application/pdf" 10;
                         sample_part "notes.txt" "text/plain" 10]
                        NoCustomNames)
     = (empty_state,
        (400, UploadResponse.mk false "" []
                (Some "Apenas arquivos PDF são permitidos!"))).
Proof.
  split; [discriminate|]. split; [discriminate|]. vm_compute. reflexivity.
Qed.

(** ** The display name *)

Lemma starts_with_nil_r (p : string) : p <> "" -> starts_with p "" = false.
Proof. destruct p; [congruence|reflexivity]. Qed.

Lemma starts_with_refl (p : string) : starts_with p p = true.
Proof.
  induction p as [|c p IH]; simpl; [reflexivity|].
  now rewrite Ascii.eqb_refl.
Qed.

Lemma starts_with_app (p s : string) :
  starts_with p s = true -> s = p ++ drop (String.length p) s.
Proof.
  revert s. induction p as [|c p IH]; intros s H; simpl in *; [reflexivity|].
  destruct s as [|d s]; [discriminate|].
  apply andb_prop in H. destruct H as [E H].
  apply Ascii.eqb_eq in E. subst d.
  simpl. f_equal. now apply IH.
Qed.

Lemma starts_with_take (p s : string) (n : nat) :
  starts_with p s = true -> (String.length p <= n)%nat ->
  starts_with p (take n s) = true.
Proof.
  revert s n. induction p as [|c p IH]; intros s n H L; simpl in *; [reflexivity|].
  destruct s as [|d s]; [discriminate|].
  destruct n as [|n]; [lia|]. simpl.
  apply andb_prop in H. destruct H as [E H]. rewrite E. simpl.
  apply IH; [exact H|lia].
Qed.

Lemma drop_all (s : string) : drop (String.length s) s = "".
Proof. induction s; simpl; auto. Qed.

Lemma append_length (a b : string) :
  String.length (a ++ b) = (String.length a + String.length b)%nat.
Proof. induction a; simpl; congruence. Qed.

Lemma contains_unfold (t s : string) :
  contains t s =
  starts_with t s
  || match s with EmptyString => false | String _ s' => contains t s' end.
Proof. destruct s; reflexivity. Qed.

Lemma contains_cons (t s : string) (c : ascii) :
  contains t (String c s) = false -> contains t s = false.
Proof.
  rewrite contains_unfold. intros H. apply orb_false_elim in H. tauto.
Qed.

Lemma contains_starts_with (t s : string) :
  starts_with t s = true -> contains t s = true.
Proof. rewrite contains_unfold. intros ->. reflexivity. Qed.

Lemma starts_with_append (t b : string) : starts_with t (t ++ b) = true.
Proof.
  induction t as [|c t IH]; simpl; [reflexivity|].
  now rewrite Ascii.eqb_refl.
Qed.

(** [contains] is the substring relation. *)
Lemma contains_iff (t s : string) :
  contains t s = true <-> exists a b, s = a ++ t ++ b.
Proof.
  split.
  - induction s as [|c s IH]; rewrite contains_unfold; intros H;
      apply orb_prop in H; destruct H as [H|H]; try discriminate.
    + exists "", (drop (String.length t) ""). now apply starts_with_app.
    + exists "", (drop (String.length t) (String c s)). now apply starts_with_app.
    + destruct (IH H) as [a [b ->]]. exists (String c a), b. reflexivity.
  - intros [a [b ->]]. induction a as [|c a IH].
    + cbn [append]. apply contains_starts_with. apply starts_with_append.
    + cbn [append]. rewrite contains_unfold, IH. apply orb_true_r.
Qed.

(** A name in which [suf] occurs only as the final suffix (or not at all)
    loses exactly that suffix under [replace]. *)
Lemma replace_first_strip (suf s : string) :
  suf <> "" ->
  contains suf (take (String.length s - 1) s) = false ->
  replace_first suf "" s = strip_suffix suf s.
Proof.
  intros Hsuf. induction s as [|c s IH]; intros Hc.
  - destruct suf; [congruence|reflexivity].
  - assert (Hlen : (String.length (String c s) - 1)%nat = String.length s)
      by (simpl; lia).
    rewrite Hlen in Hc.
    cbn [replace_first strip_suffix].
    destruct (starts_with suf (String c s)) eqn:P.
    + assert (E : String c s = suf).
      { pose proof (starts_with_app _ _ P) as A.
        destruct (drop (String.length suf) (String c s)) as [|d r] eqn:D.
        - rewrite append_nil_r in A. exact A.
        - exfalso.
          assert (L : (String.length suf <= String.length s)%nat).
          { apply (f_equal String.length) in A.
            rewrite append_length in A. simpl in A. lia. }
          rewrite (contains_starts_with _ _ (starts_with_take _ _ _ P L)) in Hc.
          discriminate. }
      rewrite E, String.eqb_refl, drop_all. reflexivity.
    + destruct (String.eqb (String c s) suf) eqn:E.
      * apply String.eqb_eq in E. rewrite E, starts_with_refl in P. discriminate.
      * f_equal. apply IH.
        destruct s as [|d s'];
          [simpl; rewrite starts_with_nil_r by assumption; reflexivity|].
        cbn [String.length take] in Hc.
        apply contains_cons in Hc.
        replace (String.length (String d s') - 1)%nat with (String.length s')
          by (simpl; lia).
        exact Hc.
Qed.

(** [strip_suffix] does remove a final suffix, whatever precedes it. *)
Lemma strip_suffix_app (suf base : string) :
  strip_suffix suf (base ++ suf) = base.
Proof.
  induction base as [|c b IH].
  - simpl. destruct suf; simpl; [reflexivity|].
    now rewrite Ascii.eqb_refl, String.eqb_refl.
  - cbn [append strip_suffix].
    destruct (String.eqb (String c (b ++ suf)) suf) eqn:E.
    + apply String.eqb_eq in E. apply (f_equal String.length) in E.
      simpl in E. rewrite append_length in E. lia.
    + f_equal. exact IH.
Qed.

Lemma supplied_name_names_of (cns : CustomNames) (i : nat) :
  supplied_name cns i = nth_error (names_of cns) i.
Proof. destruct cns; simpl; try reflexivity; destruct i; reflexivity. Qed.

(** What a 200 answer of the upload route says about the run. *)
Lemma post_api_upload_200_inv (cfg : Config) (env : Env) (st : State)
    (req : UploadRequest) :
  fst (snd (post_api_upload cfg env st req)) = 200 ->
  multer_array cfg 10 (req_parts req) (uploads st)
    = (uploads (fst (post_api_upload cfg env st req)),
       inr (map (stored_file cfg) (req_parts req)))
  /\ upload_loop env 0 (map (stored_file cfg) (req_parts req))
       (names_of (customNames req)) (pdf_files st)
     = (pdf_files (fst (post_api_upload cfg env st req)),
        Some (UploadResponse.files (snd (snd (post_api_upload cfg env st req))))).
Proof.
  intros H200.
  destruct (multer_stage cfg req (uploads st)) as [d [e|fs]] eqn:E.
  - rewrite (post_api_upload_failed cfg env st req d e E) in H200.
    destruct (handleUploadError_400 e) as [H1 _].
    cbn [fst snd] in H200. rewrite H1 in H200. discriminate.
  - destruct (multer_stage_inr_inv _ _ _ _ _ E) as [Ea _].
    destruct (multer_array_inr_disk _ _ _ _ _ _ Ea) as [-> _].
    rewrite (post_api_upload_accepted cfg env st req d _ E) in *.
    cbn [fst snd pdf_files uploads] in *.
    split; [exact Ea|].
    destruct (upload_handler_outcome env (map (stored_file cfg) (req_parts req))
                (customNames req) (pdf_files st)) as [[H1 _]|[[_ H2]|[H1 _]]];
      [rewrite H1 in H200; discriminate|exact H2|rewrite H1 in H200; discriminate].
Qed.

(** C3 (as amended). In an accepted batch every item has its row, in
    request order.  The stored custom name is the custom name supplied for
    that position exactly as given, without trimming, when there is one and
    it is not empty; otherwise, for a declared name in which [.pdf] occurs
    only as the final extension or not at all, it is the declared name
    without that extension.  The column keeps the first 255 characters: a
    name of at most 255 characters is stored whole. *)
Theorem stored_customName (cfg : Config) (env : Env) (st : State)
    (req : UploadRequest) :
  fst (snd (post_api_upload cfg env st req)) = 200 ->
  exists rows,
    pdf_files (fst (post_api_upload cfg env st req)) = (pdf_files st ++ rows)%list
    /\ List.length rows = List.length (req_parts req)
    /\ forall i p,
         nth_error (req_parts req) i = Some p ->
         exists row,
           nth_error rows i = Some row
           /\ match supplied_name (customNames req) i with
              | Some (String c s) =>
                  custom_name row = take_chars 255 (String c s)
                  /\ ((char_length (String c s) <= 255)%nat ->
                      custom_name row = String c s)
              | _ =>
                  contains ".pdf"
                    (take (String.length (part_originalname p) - 1)
                       (part_originalname p)) = false ->
                  custom_name row =
                    take_chars 255 (strip_suffix ".pdf" (part_originalname p))
                  /\ ((char_length (strip_suffix ".pdf" (part_originalname p))
                       <= 255)%nat ->
                      custom_name row = strip_suffix ".pdf" (part_originalname p))
              end.
Proof.
  intros H200.
  destruct (post_api_upload_200_inv cfg env st req H200) as [_ L].
  destruct (upload_loop_rows _ _ _ _ _ _ _ L) as [rows [Hr [Hl1 [Hl2 Hnth]]]].
  rewrite length_map in Hl1.
  exists rows. split; [exact Hr|]. split; [exact Hl1|].
  intros i p Hp.
  destruct (Hnth i (stored_file cfg p)) as [row [Hrow [Hcn _]]].
  { rewrite nth_error_map, Hp. reflexivity. }
  exists row. split; [exact Hrow|].
  rewrite supplied_name_names_of.
  unfold customName_of in Hcn. cbn [Nat.add originalname stored_file] in Hcn.
  assert (Hwhole : forall x, custom_name row = take_chars 255 x ->
                     custom_name row = take_chars 255 x
                     /\ ((char_length x <= 255)%nat -> custom_name row = x)).
  { intros x Hx. split; [exact Hx|]. intros Hle. rewrite Hx.
    now apply take_chars_all. }
  destruct (nth_error (names_of (customNames req)) i) as [[|c s]|];
    try (apply Hwhole; exact Hcn);
    intros Hpdf; apply Hwhole; rewrite Hcn; f_equal;
    (apply replace_first_strip; [discriminate|exact Hpdf]).
Qed.

Lemma stored_customName_witness :
  exists rows,
    pdf_files (fst (post_api_upload default_config sample_env empty_state
                      two_named_pdfs)) = (pdf_files empty_state ++ rows)%list
    /\ List.length rows = List.length (req_parts two_named_pdfs)
    /\ forall i p,
         nth_error (req_parts two_named_pdfs) i = Some p ->
         exists row,
           nth_error rows i = Some row
           /\ match supplied_name (customNames two_named_pdfs) i with
              | Some (String c s) =>
                  custom_name row = take_chars 255 (String c s)
                  /\ ((char_length (String c s) <= 255)%nat ->
                      custom_name row = String c s)
              | _ =>
                  contains ".pdf"
                    (take (String.length (part_originalname p) - 1)
                       (part_originalname p)) = false ->
                  custom_name row =
                    take_chars 255 (strip_suffix ".pdf" (part_originalname p))
                  /\ ((char_length (strip_suffix ".pdf" (part_originalname p))
                       <= 255)%nat ->
                      custom_name row = strip_suffix ".pdf" (part_originalname p))
              end.
Proof.
  apply (stored_customName default_config sample_env empty_state two_named_pdfs).
  vm_compute. reflexivity.
Defined.

(** C3, counterexample.  One PDF uploaded with the custom name [" Alpha "]:
    the batch is accepted and the stored name keeps its blanks, where the
    claim requires the trimmed ["Alpha"]. *)
Lemma custom_name_not_trimmed :
  fst (snd (post_api_upload default_config sample_env empty_state
              padded_name_request)) = 200
  /\ map custom_name
       (pdf_files (fst (post_api_upload default_config sample_env empty_state
                          padded_name_request))) = [" Alpha "]
  /\ spec_customName (customNames padded_name_request) 0 "a.pdf" = "Alpha"
  /\ map custom_name
       (pdf_files (fst (post_api_upload default_config sample_env empty_state
                          padded_name_request)))
     <> [spec_customName (customNames padded_name_request) 0 "a.pdf"].
Proof.
  repeat split; try (vm_compute; reflexivity).
  vm_compute. discriminate.
Qed.

(** [replace] removes the first occurrence, which need not be the
    extension. *)
Lemma replace_first_not_extension :
  replace_first ".pdf" "" "x.pdfs.pdf" = "xs.pdf"
  /\ strip_suffix ".pdf" "x.pdfs.pdf" = "x.pdfs".
Proof. split; reflexivity. Qed.

(** ** Search *)

Lemma lower_append (a b : string) : lower (a ++ b) = lower a ++ lower b.
Proof. induction a; simpl; congruence. Qed.

(** The page query of a search does select by the text: over the record
    of the spec's example it returns the record for [q1] and for [REPORT]
    and nothing for [xyz].  The handler does not get to send these rows. *)
Lemma page_query_examples :
  select_page [q1_report] (whereClause (Some "q1")) 10 0 = Some [q1_report]
  /\ select_page [q1_report] (whereClause (Some "REPORT")) 10 0 = Some [q1_report]
  /\ select_page [q1_report] (whereClause (Some "xyz")) 10 0 = Some [].
Proof. repeat split; vm_compute; reflexivity. Qed.

(** C2. The claim fails for every search text.  With a non-empty search
    text the count query is rejected, so the answer is that of the [catch]
    block whatever the catalog holds: status 500 and no record.  Over the
    record of the spec's example, uploaded as [report.pdf] with custom name
    [Q1-Report], the searches [q1] and [REPORT] match the record as
    case-insensitive substrings and return no record. *)
Theorem search_answers_500 (t : Table) (c : ascii) (s : string) (pg lm : option Z) :
  count_query t true ["%" ++ String c s ++ "%"] = None
  /\ get_api_files t (mkFilesQuery (Some (String c s)) pg lm)
     = (500, FilesResponse.mk false [] (mkPagination 1 10 0 0)
               (Some "Erro ao carregar arquivos"))
  /\ spec_search_match "q1" q1_report = true
  /\ spec_search_match "REPORT" q1_report = true
  /\ FilesResponse.files
       (snd (get_api_files [q1_report] (mkFilesQuery (Some "q1") None None))) = []
  /\ FilesResponse.files
       (snd (get_api_files [q1_report] (mkFilesQuery (Some "REPORT") None None))) = [].
Proof.
  split; [reflexivity|]. split; [apply get_api_files_search|].
  repeat split; vm_compute; reflexivity.
Qed.

(** * Further properties of the listing *)

Lemma get_api_files_where (t : Table) (srch : option string) (w : string)
    (pg lm : option Z) :
  whereClause srch = Some w ->
  get_api_files t (mkFilesQuery srch pg lm) = listing_failed.
Proof.
  intros Hw. unfold get_api_files. cbn [search q_page q_limit]. rewrite Hw.
  rewrite count_query_where. destruct (select_page t _ _ _); reflexivity.
Qed.

Lemma page_length_formula (t : Table) (srch : option string) (p l : Z) :
  whereClause srch = None -> 1 <= p -> 1 <= l < 2 ^ 63 -> (p - 1) * l < 2 ^ 63 ->
  Z.of_nat (List.length
              (FilesResponse.files
                 (snd (get_api_files t (mkFilesQuery srch (Some p) (Some l))))))
  = Z.min l (Z.max 0 (Z.of_nat (List.length t) - (p - 1) * l)).
Proof.
  intros Hw Hp Hl Ho. rewrite get_api_files_valid by assumption.
  cbn [snd FilesResponse.files].
  rewrite length_map, length_firstn, length_skipn, order_by_length.
  pose proof (valid_page_offset p l Hp ltac:(lia)) as Hge.
  set (o := (p - 1) * l) in *.
  set (n := List.length t).
  lia.
Qed.

Lemma ceil_gt_iff (a b p : Z) :
  0 < b -> (p < Math_ceil_div a b <-> p * b < a).
Proof.
  intros Hb. pose proof (Math_ceil_div_spec a b Hb) as [H1 H2].
  split; intros H; nia.
Qed.

(** X1. The number of records on page [p]: [s] on every page before the last,
    what is left on the last page, none on a page after the last. *)
Theorem listing_page_length (t : Table) (srch : option string) (p s : Z) :
  1 <= p -> 1 <= s ->
  let r := get_api_files t (mkFilesQuery srch (Some p) (Some s)) in
  let pg := FilesResponse.pagination (snd r) in
  Z.of_nat (List.length (FilesResponse.files (snd r)))
    = Z.min s (Z.max 0 (total pg - (p - 1) * s))
  /\ (p < totalPages pg ->
      Z.of_nat (List.length (FilesResponse.files (snd r))) = s)
  /\ (p <= totalPages pg -> FilesResponse.files (snd r) <> [])
  /\ (totalPages pg < p -> FilesResponse.files (snd r) = []).
Proof.
  intros Hp Hs r pg.
  pose proof (valid_page_offset p s Hp Hs) as Hge.
  destruct (get_api_files_cases t srch p s Hp Hs) as [E|[Hw [H1 H2]]].
  - unfold pg, r. rewrite E. unfold listing_failed.
    cbn [snd FilesResponse.files FilesResponse.pagination total totalPages
         List.length].
    repeat split; try lia; try reflexivity.
  - pose proof (page_length_formula t srch p s Hw Hp ltac:(lia) H2) as L.
    fold r in L.
    assert (Et : total pg = Z.of_nat (List.length t)).
    { unfold pg, r. rewrite get_api_files_valid by (assumption || lia).
      reflexivity. }
    assert (Ep : totalPages pg = Math_ceil_div (Z.of_nat (List.length t)) s).
    { unfold pg, r. rewrite get_api_files_valid by (assumption || lia).
      reflexivity. }
    pose proof (Math_ceil_div_spec (Z.of_nat (List.length t)) s ltac:(lia))
      as [C1 C2].
    rewrite <- Ep, <- Et in C1, C2. rewrite <- Et in L.
    split; [exact L|]. split; [|split].
    + intros H. rewrite L. nia.
    + intros H E. rewrite E in L. simpl in L. nia.
    + intros H. apply length_zero_iff_nil. nia.
Qed.

Lemma listing_page_length_witness :
  let r := get_api_files eleven_rows (mkFilesQuery None (Some 2) (Some 4)) in
  let pg := FilesResponse.pagination (snd r) in
  Z.of_nat (List.length (FilesResponse.files (snd r)))
    = Z.min 4 (Z.max 0 (total pg - (2 - 1) * 4))
  /\ (2 < totalPages pg ->
      Z.of_nat (List.length (FilesResponse.files (snd r))) = 4)
  /\ (2 <= totalPages pg -> FilesResponse.files (snd r) <> [])
  /\ (totalPages pg < 2 -> FilesResponse.files (snd r) = []).
Proof.
  apply (listing_page_length eleven_rows None 2 4); lia.
Defined.

(** X2. The client draws the button to the next page exactly when the next
    page holds a record.  The catalog holds fewer than 2^63 records, the
    range of the BIGINT that counts them. *)
Theorem next_button_iff_more (t : Table) (srch : option string) (p s : Z) :
  1 <= p -> 1 <= s -> Z.of_nat (List.length t) < 2 ^ 63 ->
  show_next (FilesResponse.pagination
               (snd (get_api_files t (mkFilesQuery srch (Some p) (Some s))))) = true
  <-> FilesResponse.files
        (snd (get_api_files t (mkFilesQuery srch (Some (p + 1)) (Some s)))) <> [].
Proof.
  intros Hp Hs Hn.
  assert (Hfail : show_next (FilesResponse.pagination (snd listing_failed)) = true
                  <-> FilesResponse.files (snd listing_failed) <> []).
  { unfold listing_failed. cbn. split; [discriminate|congruence]. }
  pose proof (valid_page_offset p s Hp Hs) as Hge.
  destruct (whereClause srch) as [w|] eqn:Hw.
  { rewrite !(get_api_files_where t srch w) by exact Hw. exact Hfail. }
  destruct (Z.lt_ge_cases s (2 ^ 63)) as [H1|H1].
  2: { rewrite !get_api_files_rejected by lia. exact Hfail. }
  destruct (Z.lt_ge_cases ((p - 1) * s) (2 ^ 63)) as [H2|H2].
  2: { rewrite !get_api_files_rejected by nia. exact Hfail. }
  rewrite (get_api_files_valid t srch p s) by (assumption || lia).
  unfold show_next. cbn [snd FilesResponse.pagination page totalPages].
  rewrite andb_true_iff, !Z.ltb_lt, !ceil_gt_iff by lia.
  destruct (Z.lt_ge_cases (p * s) (2 ^ 63)) as [H3|H3].
  - pose proof (page_length_formula t srch (p + 1) s Hw ltac:(lia) ltac:(lia)
                  ltac:(nia)) as L.
    replace (p + 1 - 1) with p in L by lia.
    rewrite <- length_zero_iff_nil.
    split; intros H; nia.
  - rewrite get_api_files_rejected by nia.
    unfold listing_failed. cbn [snd FilesResponse.files].
    split; [intros H; nia|congruence].
Qed.

Lemma next_button_iff_more_witness :
  show_next (FilesResponse.pagination
               (snd (get_api_files eleven_rows (mkFilesQuery None (Some 1) (Some 9))))) = true
  <-> FilesResponse.files
        (snd (get_api_files eleven_rows (mkFilesQuery None (Some (1 + 1)) (Some 9)))) <> [].
Proof.
  apply (next_button_iff_more eleven_rows None 1 9); [lia|lia|].
  vm_compute. reflexivity.
Defined.






Lemma lower_ascii_idem (c : ascii) : lower_ascii (lower_ascii c) = lower_ascii c.
Proof. destruct c as [[] [] [] [] [] [] [] []]; reflexivity. Qed.

Lemma lower_idem (s : string) : lower (lower s) = lower s.
Proof.
  induction s as [|c s IH]; [reflexivity|].
  simpl. now rewrite lower_ascii_idem, IH.
Qed.

(** The WHERE clause of a search text and that of its lower-case form
    select the same rows. *)
Lemma where_holds_lower (s : string) (r : Row) :
  where_holds (whereClause (Some (lower s))) r = where_holds (whereClause (Some s)) r.
Proof.
  destruct s as [|c s]; [reflexivity|].
  cbn [lower whereClause where_holds]. unfold ilike.
  change ("%" ++ String (lower_ascii c) (lower s) ++ "%")
    with (String pct (lower (String c s) ++ String pct "")).
  change ("%" ++ String c s ++ "%") with (String pct (String c s ++ String pct "")).
  cbn [lower]. rewrite !lower_append. cbn [lower].
  rewrite lower_idem, lower_ascii_idem. reflexivity.
Qed.

Lemma get_api_files_ext (t : Table) (s1 s2 : option string) (pg lm : option Z) :
  (forall r, where_holds (whereClause s1) r = where_holds (whereClause s2) r) ->
  (whereClause s1 = None <-> whereClause s2 = None) ->
  get_api_files t (mkFilesQuery s1 pg lm) = get_api_files t (mkFilesQuery s2 pg lm).
Proof.
  intros H [N1 N2]. unfold get_api_files, select_page.
  cbn [search q_page q_limit].
  rewrite (filter_ext _ _ H).
  destruct (whereClause s1) as [w1|], (whereClause s2) as [w2|]; try reflexivity.
  - discriminate (N2 eq_refl).
  - discriminate (N1 eq_refl).
Qed.

(** X4. The search does not distinguish the case of the search text, whatever
    characters it holds: a text and its lower-case form give the same
    answer. *)
Theorem search_ignores_case (t : Table) (s : string) (pg lm : option Z) :
  get_api_files t (mkFilesQuery (Some s) pg lm)
  = get_api_files t (mkFilesQuery (Some (lower s)) pg lm).
Proof.
  apply get_api_files_ext.
  - intros r. symmetry. apply where_holds_lower.
  - destruct s; simpl; split; intros H; (reflexivity || discriminate).
Qed.



(** * Statistics *)

(** X7. The statistics route answers 200; [totalFiles] is the number of
    records, [recentUploads] lies between 0 and [totalFiles], and over an
    empty catalog, where the sum is NULL, the size reads [0 Bytes]. *)
Theorem stats_counts (t : Table) (now : Z) :
  fst (get_api_stats t now) = 200
  /\ totalFiles (StatsResponse.stats (snd (get_api_stats t now)))
     = Z.of_nat (List.length t)
  /\ 0 <= recentUploads (StatsResponse.stats (snd (get_api_stats t now)))
       <= totalFiles (StatsResponse.stats (snd (get_api_stats t now)))
  /\ StatsResponse.stats (snd (get_api_stats [] now)) = mkStats 0 "0 Bytes" 0.
Proof.
  unfold get_api_stats, select_count, select_count_recent.
  cbn [fst snd StatsResponse.stats totalFiles recentUploads].
  rewrite where_none.
  split; [reflexivity|]. split; [reflexivity|]. split; [|reflexivity].
  pose proof (filter_length_le (fun r => now - seven_days <=? upload_date r) t).
  lia.
Qed.

(** * Further properties of deletion *)

Lemma delete_200_inv (st : State) (x : string) :
  fst (snd (delete_api_files st x)) = 200 ->
  exists u file,
    uuid_in x = Some u
    /\ In file (pdf_files st) /\ id file = u
    /\ pdf_files (fst (delete_api_files st x))
       = filter (fun r => negb (has_id u r)) (pdf_files st).
Proof.
  unfold delete_api_files, select_by_id, delete_by_id.
  destruct (uuid_in x) as [u|]; [|discriminate].
  destruct (filter (has_id u) (pdf_files st)) as [|file rest] eqn:F;
    [discriminate|].
  intros _. exists u, file.
  assert (Hin : In file (filter (has_id u) (pdf_files st)))
    by (rewrite F; left; reflexivity).
  apply (proj1 (filter_In _ _ _)) in Hin. destruct Hin as [Hin Hid].
  apply has_id_true in Hid. auto.
Qed.

Lemma filter_negb_has_id (u : string) (t : Table) :
  filter (has_id u) (filter (fun r => negb (has_id u r)) t) = [].
Proof.
  apply filter_none. intros r Hr.
  apply (proj1 (filter_In _ _ _)) in Hr. destruct Hr as [_ Hr].
  now destruct (has_id u r).
Qed.

(** X8. A second delete of the same id finds nothing: it answers 404 and
    changes neither catalog nor upload directory. *)
Theorem delete_twice (st : State) (x : string) :
  fst (snd (delete_api_files st x)) = 200 ->
  fst (snd (delete_api_files (fst (delete_api_files st x)) x)) = 404
  /\ fst (delete_api_files (fst (delete_api_files st x)) x)
     = fst (delete_api_files st x).
Proof.
  intros H. destruct (delete_200_inv st x H) as [u [file [Hu [_ [_ Ht]]]]].
  unfold delete_api_files at 1 3, select_by_id.
  rewrite Hu, Ht, filter_negb_has_id. split; reflexivity.
Qed.

Lemma delete_twice_witness :
  fst (snd (delete_api_files
              (fst (delete_api_files (mkState [q1_report] [])
                      "3f2504e0-4f89-41d3-9a0c-0305e82c3311"))
              "3f2504e0-4f89-41d3-9a0c-0305e82c3311")) = 404
  /\ fst (delete_api_files
            (fst (delete_api_files (mkState [q1_report] [])
                    "3f2504e0-4f89-41d3-9a0c-0305e82c3311"))
            "3f2504e0-4f89-41d3-9a0c-0305e82c3311")
     = fst (delete_api_files (mkState [q1_report] [])
              "3f2504e0-4f89-41d3-9a0c-0305e82c3311").
Proof.
  apply (delete_twice (mkState [q1_report] [])
           "3f2504e0-4f89-41d3-9a0c-0305e82c3311").
  vm_compute. reflexivity.
Defined.

Lemma unique_id_filter (t : Table) (row : Row) :
  NoDup (map id t) -> In row t -> filter (has_id (id row)) t = [row].
Proof.
  induction t as [|x t IH]; intros N Hin; [destruct Hin|].
  simpl in N. apply NoDup_cons_iff in N. destruct N as [Nx Nt].
  simpl. destruct Hin as [->|Hin].
  - rewrite (proj2 (has_id_true (id row) row) eq_refl). f_equal.
    apply filter_none. intros y Hy. apply has_id_false. intros E.
    apply Nx. rewrite <- E. now apply in_map.
  - destruct (has_id (id row) x) eqn:E.
    + apply has_id_true in E. exfalso. apply Nx. rewrite E. now apply in_map.
    + now apply IH.
Qed.

(** X9. With unique ids in the catalog, a successful delete removes exactly
    one record, every other record stays, the ids stay unique, and the
    statistics count one file less. *)
Theorem delete_removes_one (st : State) (x : string) (now : Z) :
  NoDup (map id (pdf_files st)) ->
  fst (snd (delete_api_files st x)) = 200 ->
  exists file,
    In file (pdf_files st)
    /\ uuid_in x = Some (id file)
    /\ (forall r, In r (pdf_files (fst (delete_api_files st x)))
                  <-> In r (pdf_files st) /\ r <> file)
    /\ NoDup (map id (pdf_files (fst (delete_api_files st x))))
    /\ totalFiles (StatsResponse.stats
                     (snd (get_api_stats (pdf_files (fst (delete_api_files st x))) now)))
       = totalFiles (StatsResponse.stats (snd (get_api_stats (pdf_files st) now))) - 1.
Proof.
  intros N H. destruct (delete_200_inv st x H) as [u [file [Hu [Hin [Hid Ht]]]]].
  subst u. exists file. split; [exact Hin|]. split; [exact Hu|].
  rewrite Ht. split; [|split].
  - intros r. rewrite filter_In. split.
    + intros [Hr Hn]. split; [exact Hr|]. intros ->.
      rewrite (proj2 (has_id_true (id file) file) eq_refl) in Hn. discriminate.
    + intros [Hr Hn]. split; [exact Hr|].
      destruct (has_id (id file) r) eqn:E; [|reflexivity].
      exfalso. apply Hn.
      assert (Hf : In r (filter (has_id (id file)) (pdf_files st)))
        by (apply filter_In; auto).
      rewrite (unique_id_filter _ _ N Hin) in Hf.
      destruct Hf as [<-|[]]. reflexivity.
  - clear - N. induction (pdf_files st) as [|y t IH]; [constructor|].
    simpl in N. apply NoDup_cons_iff in N. destruct N as [Ny Nt].
    simpl. destruct (negb (has_id (id file) y)); [|auto].
    simpl. constructor; [|auto].
    intros Hy. apply Ny. apply in_map_iff in Hy. destruct Hy as [z [Ez Hz]].
    apply (proj1 (filter_In _ _ _)) in Hz. rewrite <- Ez. apply in_map. tauto.
  - unfold get_api_stats, select_count.
    cbn [snd StatsResponse.stats totalFiles]. rewrite !where_none.
    pose proof (filter_length (has_id (id file)) (pdf_files st)) as L.
    rewrite (unique_id_filter _ _ N Hin) in L. simpl in L. lia.
Qed.

Lemma delete_removes_one_witness :
  exists file,
    In file (pdf_files (mkState eleven_rows []))
    /\ uuid_in "3f2504e0-4f89-41d3-9a0c-0305e82c3311" = Some (id file)
    /\ (forall r, In r (pdf_files (fst (delete_api_files (mkState eleven_rows [])
                                          "3f2504e0-4f89-41d3-9a0c-0305e82c3311")))
                  <-> In r (pdf_files (mkState eleven_rows [])) /\ r <> file)
    /\ NoDup (map id (pdf_files (fst (delete_api_files (mkState eleven_rows [])
                                        "3f2504e0-4f89-41d3-9a0c-0305e82c3311"))))
    /\ totalFiles (StatsResponse.stats
                     (snd (get_api_stats
                             (pdf_files (fst (delete_api_files (mkState eleven_rows [])
                                                "3f2504e0-4f89-41d3-9a0c-0305e82c3311")))
                             0)))
       = totalFiles (StatsResponse.stats
                       (snd (get_api_stats (pdf_files (mkState eleven_rows [])) 0))) - 1.
Proof.
  apply (delete_removes_one (mkState eleven_rows [])
           "3f2504e0-4f89-41d3-9a0c-0305e82c3311" 0).
  - vm_compute. repeat constructor; simpl; intuition discriminate.
  - vm_compute. reflexivity.
Defined.

(** * Further properties of the upload *)

Lemma insert_pdf_file_row (now : Z) (t t1 : Table) (p1 p2 p3 p4 p5 : string)
    (p6 : Z) (p7 : string) (r : Row) :
  insert_pdf_file now t p1 p2 p3 p4 p5 p6 p7 = Some (t1, r) ->
  t1 = (t ++ [r])%list
  /\ uuid_in p1 = Some (id r)
  /\ r = mkRow (id r) (take_chars 255 p2) (take_chars 255 p3) (take_chars 255 p4) (take_chars 500 p5)
               p6 (take_chars 100 p7) now now
  /\ - 2 ^ 63 <= p6 < 2 ^ 63
  /\ (forall x, In x t -> id x <> id r).
Proof.
  unfold insert_pdf_file.
  destruct (uuid_in p1) as [u|]; [|discriminate].
  destruct (varchar 255 p2) as [cn|] eqn:E2; [|discriminate].
  destruct (varchar 255 p3) as [on|] eqn:E3; [|discriminate].
  destruct (varchar 255 p4) as [fn|] eqn:E4; [|discriminate].
  destruct (varchar 500 p5) as [fp|] eqn:E5; [|discriminate].
  destruct (bigint p6) as [sz|] eqn:E6; [|discriminate].
  destruct (varchar 100 p7) as [mt|] eqn:E7; [|discriminate].
  destruct (existsb (has_id u) t) eqn:Ex; [discriminate|].
  intros [= <- <-]. cbn [id].
  apply varchar_take in E2, E3, E4, E5, E7.
  apply bigint_some in E6. destruct E6 as [-> Hb]. subst.
  split; [reflexivity|]. split; [reflexivity|]. split; [reflexivity|].
  split; [exact Hb|].
  intros x Hx Eq.
  assert (existsb (has_id u) t = true); [|congruence].
  apply existsb_exists. exists x. split; [exact Hx|]. now apply has_id_true.
Qed.

(** Every item of a loop that ran to the end: its row and its entry in
    the answer. *)
Lemma upload_loop_items (env : Env) (names : list string) (files : list File) :
  forall (i : nat) (t t' : Table) (results : list UploadedFile),
    upload_loop env i files names t = (t', Some results) ->
    exists rows,
      t' = (t ++ rows)%list
      /\ List.length rows = List.length files
      /\ forall j file,
          nth_error files j = Some file ->
          exists row,
            nth_error rows j = Some row
            /\ nth_error results j =
                 Some (upload_result env (i + j)
                         (customName_of names (i + j) file) file)
            /\ uuid_in (uuidv4 env (i + j)) = Some (id row)
            /\ row = mkRow (id row)
                       (take_chars 255 (customName_of names (i + j) file))
                       (take_chars 255 (originalname file))
                       (take_chars 255 (filename file))
                       (take_chars 500 (path file))
                       (size file)
                       (take_chars 100 (mimetype file))
                       (CURRENT_TIMESTAMP env (i + j))
                       (CURRENT_TIMESTAMP env (i + j))
            /\ - 2 ^ 63 <= size file < 2 ^ 63.
Proof.
  induction files as [|file rest IH]; intros i t t' results H; simpl in H.
  - injection H as <- <-. exists []. rewrite app_nil_r.
    split; [reflexivity|]. split; [reflexivity|].
    intros [|j] f Hj; discriminate.
  - destruct (insert_pdf_file (CURRENT_TIMESTAMP env i) t (uuidv4 env i)
                (customName_of names i file) (originalname file) (filename file)
                (path file) (size file) (mimetype file))
      as [[t1 r]|] eqn:Ins; [|discriminate].
    apply insert_pdf_file_row in Ins.
    destruct Ins as [-> [Hu [Hr [Hb _]]]].
    destruct (upload_loop env (S i) rest names (t ++ [r])%list) as [t2 res2] eqn:L.
    destruct res2 as [results2|]; [|discriminate].
    injection H as <- <-.
    destruct (IH _ _ _ _ L) as [rows [-> [Hl Hnth]]].
    exists (r :: rows). rewrite <- app_assoc.
    split; [reflexivity|]. split; [simpl; congruence|].
    intros [|j] f Hj; simpl in Hj.
    + injection Hj as <-. exists r. rewrite Nat.add_0_r.
      split; [reflexivity|]. split; [reflexivity|]. auto.
    + destruct (Hnth j f Hj) as [row Hrow].
      exists row. rewrite <- Nat.add_succ_comm. exact Hrow.
Qed.

(** The rows a loop appends have ids that differ from one another and
    from every id the table held. *)
Lemma upload_loop_fresh (env : Env) (names : list string) (files : list File) :
  forall (i : nat) (t t' : Table) (res : option (list UploadedFile)),
    upload_loop env i files names t = (t', res) ->
    exists rows,
      t' = (t ++ rows)%list
      /\ (List.length rows <= List.length files)%nat
      /\ NoDup (map id rows)
      /\ (forall x y, In x t -> In y rows -> id x <> id y).
Proof.
  induction files as [|file rest IH]; intros i t t' res H; simpl in H.
  - injection H as <- <-. exists []. rewrite app_nil_r.
    split; [reflexivity|]. split; [simpl; lia|].
    split; [constructor|]. intros x y _ [].
  - destruct (insert_pdf_file (CURRENT_TIMESTAMP env i) t (uuidv4 env i)
                (customName_of names i file) (originalname file) (filename file)
                (path file) (size file) (mimetype file))
      as [[t1 r]|] eqn:Ins.
    + apply insert_pdf_file_row in Ins.
      destruct Ins as [-> [_ [_ [_ Hfresh]]]].
      destruct (upload_loop env (S i) rest names (t ++ [r])%list) as [t2 res2] eqn:L.
      destruct (IH _ _ _ _ L) as [rows [-> [Hl [Hn Hf]]]].
      exists (r :: rows).
      assert (Et : t' = ((t ++ [r]) ++ rows)%list)
        by (destruct res2; injection H as <- _; reflexivity).
      rewrite Et, <- app_assoc.
      split; [reflexivity|]. split; [simpl; lia|]. split.
      * simpl. constructor; [|exact Hn].
        intros Hin. apply in_map_iff in Hin. destruct Hin as [y [Ey Hy]].
        apply (Hf r y); [apply in_or_app; right; left; reflexivity|exact Hy|].
        congruence.
      * intros x y Hx [<-|Hy]; [now apply Hfresh|].
        apply Hf; [apply in_or_app; left; exact Hx|exact Hy].
    + injection H as <- <-. exists []. rewrite app_nil_r.
      split; [reflexivity|]. split; [simpl; lia|].
      split; [constructor|]. intros x y _ [].
Qed.

Lemma upload_handler_table (env : Env) (files : list File) (cns : CustomNames)
    (t : Table) :
  fst (upload_handler env files cns t) = t
  \/ exists res,
       upload_loop env 0 files (names_of cns) t
       = (fst (upload_handler env files cns t), res).
Proof.
  unfold upload_handler. destruct files as [|f fs]; [left; reflexivity|].
  destruct cns as [| | |a|]; cbn [names_of];
    try (left; reflexivity);
    destruct (upload_loop env 0 (f :: fs) _ t) as [t' [results|]];
    right; eexists; reflexivity.
Qed.

(** X10. Whatever the request and whatever the answer, the upload route only
    appends to the catalog: the records present before are kept unchanged
    and in place, at most one record per item is added, and the ids of the
    added records are new and distinct, so unique ids stay unique. *)
Theorem upload_only_appends (cfg : Config) (env : Env) (st : State)
    (req : UploadRequest) :
  exists rows,
    pdf_files (fst (post_api_upload cfg env st req)) = (pdf_files st ++ rows)%list
    /\ (List.length rows <= List.length (req_parts req))%nat
    /\ NoDup (map id rows)
    /\ (forall x y, In x (pdf_files st) -> In y rows -> id x <> id y)
    /\ (NoDup (map id (pdf_files st)) ->
        NoDup (map id (pdf_files (fst (post_api_upload cfg env st req))))).
Proof.
  assert (Hnone : forall t' : Table,
             t' = pdf_files st ->
             exists rows,
               t' = (pdf_files st ++ rows)%list
               /\ (List.length rows <= List.length (req_parts req))%nat
               /\ NoDup (map id rows)
               /\ (forall x y, In x (pdf_files st) -> In y rows -> id x <> id y)
               /\ (NoDup (map id (pdf_files st)) -> NoDup (map id t'))).
  { intros t' ->. exists []. rewrite app_nil_r.
    split; [reflexivity|]. split; [simpl; lia|]. split; [constructor|].
    split; [intros x y _ []|auto]. }
  destruct (multer_stage cfg req (uploads st)) as [d [e|fs]] eqn:E.
  - rewrite (post_api_upload_failed cfg env st req d e E).
    apply Hnone. reflexivity.
  - rewrite (post_api_upload_accepted cfg env st req d _ E).
    cbn [fst pdf_files].
    destruct (multer_stage_inr_inv _ _ _ _ _ E) as [Ea _].
    destruct (multer_array_inr_disk _ _ _ _ _ _ Ea) as [-> _].
    destruct (upload_handler_table env (map (stored_file cfg) (req_parts req))
                (customNames req) (pdf_files st)) as [Ht|[res L]].
    + apply Hnone. exact Ht.
    + destruct (upload_loop_fresh _ _ _ _ _ _ _ L) as [rows [Hr [Hl [Hn Hf]]]].
      rewrite length_map in Hl.
      exists rows. split; [exact Hr|]. split; [exact Hl|].
      split; [exact Hn|]. split; [exact Hf|].
      intros Hold. rewrite Hr, map_app.
      apply NoDup_app; [exact Hold|exact Hn|].
      intros a Ha Hb.
      apply in_map_iff in Ha. destruct Ha as [x [<- Hx]].
      apply in_map_iff in Hb. destruct Hb as [y [Ey Hy]].
      apply (Hf x y Hx Hy). congruence.
Qed.

Lemma fresh_row_filter (t rows : Table) (j : nat) (row : Row) :
  NoDup (map id rows) ->
  (forall x y, In x t -> In y rows -> id x <> id y) ->
  nth_error rows j = Some row ->
  filter (has_id (id row)) (t ++ rows) = [row].
Proof.
  intros Hn Hf Hj. apply nth_error_In in Hj.
  rewrite filter_app, (unique_id_filter rows row Hn Hj).
  rewrite filter_none; [reflexivity|].
  intros x Hx. apply has_id_false. now apply Hf.
Qed.

(** X11. Round trip of an accepted batch: the [i]-th entry of the answer
    carries the id drawn for the [i]-th item, and looking that id up in the
    resulting catalog finds exactly one record, which holds the names (the
    first 255 characters of each, so a name of at most 255 characters
    whole), the size and the instant of that item. *)
Theorem uploaded_is_found (cfg : Config) (env : Env) (st : State)
    (req : UploadRequest) :
  fst (snd (post_api_upload cfg env st req)) = 200 ->
  forall i p,
    nth_error (req_parts req) i = Some p ->
    exists f row,
      nth_error (UploadResponse.files (snd (snd (post_api_upload cfg env st req)))) i
        = Some f
      /\ uf_id f = uuidv4 env i
      /\ originalName f = part_originalname p
      /\ fileSize f = formatFileSize (part_size p)
      /\ downloadUrl f = "/api/download/" ++ uf_id f
      /\ select_by_id (pdf_files (fst (post_api_upload cfg env st req))) (uf_id f)
         = Some [row]
      /\ download_lookup (pdf_files (fst (post_api_upload cfg env st req))) (uf_id f)
         = inr row
      /\ custom_name row = take_chars 255 (customName f)
      /\ original_name row = take_chars 255 (originalName f)
      /\ ((char_length (customName f) <= 255)%nat -> custom_name row = customName f)
      /\ ((char_length (originalName f) <= 255)%nat ->
          original_name row = originalName f)
      /\ file_size row = part_size p
      /\ upload_date row = CURRENT_TIMESTAMP env i.
Proof.
  intros H200 i p Hp.
  destruct (post_api_upload_200_inv cfg env st req H200) as [_ L].
  destruct (upload_loop_items _ _ _ _ _ _ _ L) as [rows [Hr [_ Hnth]]].
  destruct (upload_loop_fresh _ _ _ _ _ _ _ L) as [rows' [Hr' [_ [Hn Hf]]]].
  assert (rows' = rows) by (rewrite Hr in Hr'; now apply app_inv_head in Hr').
  subst rows'.
  destruct (Hnth i (stored_file cfg p)) as [row [Hrow [Hres [Hu [Erow _]]]]].
  { rewrite nth_error_map, Hp. reflexivity. }
  cbn [Nat.add] in *.
  eexists. exists row. split; [exact Hres|].
  cbn [uf_id originalName fileSize downloadUrl customName upload_result
       originalname size stored_file].
  split; [reflexivity|]. split; [reflexivity|]. split; [reflexivity|].
  split; [reflexivity|].
  assert (Hsel : select_by_id (pdf_files (fst (post_api_upload cfg env st req)))
                   (uuidv4 env i) = Some [row]).
  { unfold select_by_id. rewrite Hu, Hr. f_equal.
    eapply fresh_row_filter; eauto. }
  split; [exact Hsel|]. split.
  { unfold download_lookup. rewrite Hsel. reflexivity. }
  rewrite Erow. cbn [custom_name original_name file_size upload_date
                     originalname size stored_file].
  repeat split; try reflexivity; intros H; now apply take_chars_all.
Qed.

Lemma uploaded_is_found_witness :
  exists f row,
    nth_error (UploadResponse.files
                 (snd (snd (post_api_upload default_config sample_env empty_state
                              two_named_pdfs)))) 1
      = Some f
    /\ uf_id f = uuidv4 sample_env 1
    /\ originalName f = part_originalname (sample_part "b.pdf" "application/x-pdf" 20)
    /\ fileSize f = formatFileSize (part_size (sample_part "b.pdf" "application/x-pdf" 20))
    /\ downloadUrl f = "/api/download/" ++ uf_id f
    /\ select_by_id (pdf_files (fst (post_api_upload default_config sample_env
                                       empty_state two_named_pdfs))) (uf_id f)
       = Some [row]
    /\ download_lookup (pdf_files (fst (post_api_upload default_config sample_env
                                          empty_state two_named_pdfs))) (uf_id f)
       = inr row
    /\ custom_name row = take_chars 255 (customName f)
    /\ original_name row = take_chars 255 (originalName f)
    /\ ((char_length (customName f) <= 255)%nat -> custom_name row = customName f)
    /\ ((char_length (originalName f) <= 255)%nat ->
        original_name row = originalName f)
    /\ file_size row = part_size (sample_part "b.pdf" "application/x-pdf" 20)
    /\ upload_date row = CURRENT_TIMESTAMP sample_env 1.
Proof.
  apply (uploaded_is_found default_config sample_env empty_state two_named_pdfs
           ltac:(vm_compute; reflexivity) 1
           (sample_part "b.pdf" "application/x-pdf" 20)).
  reflexivity.
Defined.

(** [path.join] on the default upload directory and on other shapes of
    directory. *)
Lemma path_join_examples :
  path_join "./uploads" "pdf-1-2-a.pdf" = "uploads/pdf-1-2-a.pdf"
  /\ path_join "uploads/" "pdf-1-2-a.pdf" = "uploads/pdf-1-2-a.pdf"
  /\ path_join "/srv/data/../files" "pdf-1-2-a.pdf" = "/srv/files/pdf-1-2-a.pdf"
  /\ path_join "../files//" "pdf-1-2-a.pdf" = "../files/pdf-1-2-a.pdf"
  /\ path_join "." "pdf-1-2-a.pdf" = "pdf-1-2-a.pdf".
Proof. repeat split; vm_compute; reflexivity. Qed.

Lemma allowed_mime_fits (m : string) : In m allowedMimes -> take_chars 100 m = m.
Proof. intros [<-|[<-|[]]]; reflexivity. Qed.

Lemma part_ok_inv (cfg : Config) (p : Part) :
  part_ok cfg p = true ->
  fieldname p = "pdfFiles" /\ In (part_mimetype p) allowedMimes
  /\ part_size p <= MAX_FILE_SIZE cfg.
Proof.
  unfold part_ok. intros H.
  apply andb_prop in H. destruct H as [H H3].
  apply andb_prop in H. destruct H as [H1 H2].
  apply String.eqb_eq in H1. apply fileFilter_In in H2.
  apply negb_true_iff in H3. apply Z.ltb_ge in H3. auto.
Qed.

(** X12. In an accepted batch the [i]-th record stored is that of the [i]-th
    item: its MIME type is one of the allowed ones, its size is the size
    of the item and within the configured maximum, and the blob written
    for the item is in the upload directory, at the path that
    [path.join] makes of the upload directory and the generated name; the
    record holds that name and that path (the columns keep the first 255
    and 500 characters). *)
Theorem accepted_records_valid (cfg : Config) (env : Env) (st : State)
    (req : UploadRequest) :
  fst (snd (post_api_upload cfg env st req)) = 200 ->
  exists rows,
    pdf_files (fst (post_api_upload cfg env st req)) = (pdf_files st ++ rows)%list
    /\ forall i p,
         nth_error (req_parts req) i = Some p ->
         exists row,
           nth_error rows i = Some row
           /\ mime_type row = part_mimetype p
           /\ In (mime_type row) allowedMimes
           /\ file_size row = part_size p
           /\ file_size row <= MAX_FILE_SIZE cfg
           /\ file_name row = take_chars 255 (storage_filename p)
           /\ file_path row
              = take_chars 500 (path_join (UPLOAD_DIR cfg) (storage_filename p))
           /\ In (path_join (UPLOAD_DIR cfg) (storage_filename p))
                (uploads (fst (post_api_upload cfg env st req))).
Proof.
  intros H200.
  destruct (post_api_upload_200_inv cfg env st req H200) as [M L].
  destruct (upload_loop_items _ _ _ _ _ _ _ L) as [rows [Hr [_ Hnth]]].
  destruct (multer_array_inr_disk _ _ _ _ _ _ M) as [_ [Hok [_ [_ Hblob]]]].
  exists rows. split; [exact Hr|].
  intros i p Hp.
  destruct (Hnth i (stored_file cfg p)) as [row [Hrow [_ [_ [Erow _]]]]].
  { rewrite nth_error_map, Hp. reflexivity. }
  apply nth_error_In in Hp.
  destruct (part_ok_inv cfg p (proj1 (forallb_forall _ _) Hok p Hp))
    as [_ [Hm Hs]].
  exists row. split; [exact Hrow|].
  rewrite Erow.
  cbn [mime_type file_size file_name file_path mimetype size filename path
       stored_file].
  rewrite (allowed_mime_fits _ Hm).
  repeat split; auto.
  apply (Hblob p Hp).
Qed.

Lemma accepted_records_valid_witness :
  exists rows,
    pdf_files (fst (post_api_upload default_config sample_env empty_state
                      two_named_pdfs)) = (pdf_files empty_state ++ rows)%list
    /\ forall i p,
         nth_error (req_parts two_named_pdfs) i = Some p ->
         exists row,
           nth_error rows i = Some row
           /\ mime_type row = part_mimetype p
           /\ In (mime_type row) allowedMimes
           /\ file_size row = part_size p
           /\ file_size row <= MAX_FILE_SIZE default_config
           /\ file_name row = take_chars 255 (storage_filename p)
           /\ file_path row
              = take_chars 500 (path_join (UPLOAD_DIR default_config) (storage_filename p))
           /\ In (path_join (UPLOAD_DIR default_config) (storage_filename p))
                (uploads (fst (post_api_upload default_config sample_env
                                 empty_state two_named_pdfs))).
Proof.
  apply (accepted_records_valid default_config sample_env empty_state
           two_named_pdfs).
  vm_compute. reflexivity.
Defined.

Lemma upload_handler_400 (env : Env) (files : list File) (cns : CustomNames)
    (t : Table) :
  fst (snd (upload_handler env files cns t)) = 400 ->
  fst (upload_handler env files cns t) = t.
Proof.
  intros H.
  destruct (upload_handler_outcome env files cns t) as [[_ E]|[[E _]|[E _]]];
    [exact E|rewrite E in H; discriminate|rewrite E in H; discriminate].
Qed.

(** X13. Custom names on which [JSON.parse] fails are noticed only after multer
    has stored the files: the answer is 400 and the catalog is unchanged,
    but the blob of every item stays in the upload directory, without a
    record. *)
Theorem invalid_names_leave_blobs (cfg : Config) (env : Env) (st : State)
    (req : UploadRequest) :
  customNames req = InvalidJson ->
  ~ multer_rejects cfg (req_parts req) ->
  fst (snd (post_api_upload cfg env st req)) = 400
  /\ pdf_files (fst (post_api_upload cfg env st req)) = pdf_files st
  /\ (forall p, In p (req_parts req) ->
        In (path_join (UPLOAD_DIR cfg) (storage_filename p))
           (uploads (fst (post_api_upload cfg env st req))))
  /\ (forall q, In q (uploads st) ->
        In q (uploads (fst (post_api_upload cfg env st req)))).
Proof.
  intros Hc Hno.
  destruct (multer_decide cfg (req_parts req)) as [[_ [Hok Hlen]]|[Hrej _]];
    [|contradiction].
  destruct (multer_array_accepts cfg (req_parts req) 10 (uploads st) Hok Hlen)
    as [d E].
  rewrite (post_api_upload_accepted cfg env st req d _
             (multer_stage_inr cfg req _ d _ E ltac:(rewrite Hc; discriminate))).
  cbn [fst snd pdf_files uploads].
  destruct (multer_array_inr_disk _ _ _ _ _ _ E) as [_ [_ [_ [Hd Hp]]]].
  assert (H400 : fst (snd (upload_handler env (map (stored_file cfg) (req_parts req))
                             (customNames req) (pdf_files st))) = 400)
    by (apply upload_handler_status; auto).
  split; [exact H400|]. split; [now apply upload_handler_400|].
  split; [exact Hp|exact Hd].
Qed.

Lemma invalid_names_leave_blobs_witness :
  fst (snd (post_api_upload default_config sample_env empty_state
              (mkUploadRequest [sample_part "a.pdf" "application/pdf" 10] InvalidJson)))
  = 400
  /\ pdf_files (fst (post_api_upload default_config sample_env empty_state
                       (mkUploadRequest [sample_part "a.pdf" "application/pdf" 10]
                                        InvalidJson)))
     = pdf_files empty_state
  /\ (forall p,
        In p (req_parts (mkUploadRequest [sample_part "a.pdf" "application/pdf" 10]
                                         InvalidJson)) ->
        In (path_join (UPLOAD_DIR default_config) (storage_filename p))
           (uploads (fst (post_api_upload default_config sample_env empty_state
                            (mkUploadRequest [sample_part "a.pdf" "application/pdf" 10]
                                             InvalidJson)))))
  /\ (forall q, In q (uploads empty_state) ->
        In q (uploads (fst (post_api_upload default_config sample_env empty_state
                              (mkUploadRequest [sample_part "a.pdf" "application/pdf" 10]
                                               InvalidJson))))).
Proof.
  apply (invalid_names_leave_blobs default_config sample_env empty_state
           (mkUploadRequest [sample_part "a.pdf" "application/pdf" 10] InvalidJson)).
  - reflexivity.
  - intros [H|H].
    + simpl in H. lia.
    + apply forallb_part_ok in H. vm_compute in H. discriminate.
Defined.

(** The error that multer reports names a cause that is present in the
    request. *)
Lemma multer_error_kind (cfg : Config) (parts : list Part) :
  forall (n : nat) (d d' : Disk) (e : UploadError),
    multer_array cfg n parts d = (d', inl e) ->
    (e = LIMIT_UNEXPECTED_FILE
     /\ ((n < List.length parts)%nat
         \/ Exists (fun p => fieldname p <> "pdfFiles") parts))
    \/ (e = filter_error
        /\ Exists (fun p => ~ In (part_mimetype p) allowedMimes) parts)
    \/ (e = LIMIT_FILE_SIZE
        /\ Exists (fun p => MAX_FILE_SIZE cfg < part_size p) parts).
Proof.
  induction parts as [|p ps IH]; intros n d d' e H.
  - discriminate.
  - destruct n as [|n].
    { injection H as _ <-. left. split; [reflexivity|]. left. simpl. lia. }
    rewrite multer_array_cons in H.
    destruct (String.eqb (fieldname p) "pdfFiles") eqn:E1; cbn [negb] in H.
    2: { injection H as _ <-. left. split; [reflexivity|]. right.
         left. now apply String.eqb_neq. }
    destruct (fileFilter (part_mimetype p)) eqn:E2; cbn [negb] in H.
    2: { injection H as _ <-. right. left. split; [reflexivity|].
         left. intros Hin. apply fileFilter_In in Hin. congruence. }
    destruct (MAX_FILE_SIZE cfg <? part_size p) eqn:E3.
    { injection H as _ <-. right. right. split; [reflexivity|].
      left. now apply Z.ltb_lt. }
    destruct (multer_array cfg n ps (writeFile d (path (stored_file cfg p))))
      as [d2 [e2|fs]] eqn:E; [|discriminate].
    injection H as _ <-.
    destruct (IH _ _ _ _ E) as [[-> [Hl|Hx]]|[[-> Hx]|[-> Hx]]].
    + left. split; [reflexivity|]. left. simpl. lia.
    + left. split; [reflexivity|]. right. now right.
    + right. left. split; [reflexivity|]. now right.
    + right. right. split; [reflexivity|]. now right.
Qed.

(** X14. A request of at most ten parts, all in the field [pdfFiles]: when a
    part is above the size limit and every MIME type is allowed, the error
    text is the fixed one about 10MB, whatever maximum is configured; when
    a MIME type is not allowed and every part is within the size limit, it
    is the text of the file filter. *)
Theorem upload_error_text (cfg : Config) (env : Env) (st : State)
    (req : UploadRequest) :
  (List.length (req_parts req) <= 10)%nat ->
  Forall (fun p => fieldname p = "pdfFiles") (req_parts req) ->
  (Forall (fun p => In (part_mimetype p) allowedMimes) (req_parts req) ->
   Exists (fun p => MAX_FILE_SIZE cfg < part_size p) (req_parts req) ->
   snd (post_api_upload cfg env st req)
   = (400, UploadResponse.mk false "" []
             (Some "Arquivo muito grande. Máximo 10MB permitido.")))
  /\ (Forall (fun p => part_size p <= MAX_FILE_SIZE cfg) (req_parts req) ->
      Exists (fun p => ~ In (part_mimetype p) allowedMimes) (req_parts req) ->
      snd (post_api_upload cfg env st req)
      = (400, UploadResponse.mk false "" []
                (Some "Apenas arquivos PDF são permitidos!"))).
Proof.
  intros Hlen Hfield.
  assert (Hrej : Exists (bad_part cfg) (req_parts req) ->
                 exists d e,
                   multer_array cfg 10 (req_parts req) (uploads st) = (d, inl e)).
  { intros Hbad. apply multer_array_rejects. left. now apply forallb_part_ok. }
  assert (Hnofield : ~ Exists (fun p => fieldname p <> "pdfFiles") (req_parts req)).
  { intros Hx. apply Exists_exists in Hx. destruct Hx as [p [Hp Hn]].
    rewrite Forall_forall in Hfield. apply Hn. now apply Hfield. }
  split.
  - intros Hmime Hbig.
    destruct Hrej as [d [e E]].
    { apply Exists_exists in Hbig. destruct Hbig as [p [Hp Hb]].
      apply Exists_exists. exists p. unfold bad_part. auto. }
    rewrite (post_api_upload_rejected cfg env st req d e E). cbn [snd].
    destruct (multer_error_kind _ _ _ _ _ _ E) as [[_ [Hl|Hx]]|[[_ Hx]|[-> _]]].
    + lia.
    + contradiction.
    + exfalso. apply Exists_exists in Hx. destruct Hx as [p [Hp Hn]].
      rewrite Forall_forall in Hmime. apply Hn. now apply Hmime.
    + reflexivity.
  - intros Hsize Hmime.
    destruct Hrej as [d [e E]].
    { apply Exists_exists in Hmime. destruct Hmime as [p [Hp Hb]].
      apply Exists_exists. exists p. unfold bad_part. auto. }
    rewrite (post_api_upload_rejected cfg env st req d e E). cbn [snd].
    destruct (multer_error_kind _ _ _ _ _ _ E) as [[_ [Hl|Hx]]|[[-> _]|[_ Hx]]].
    + lia.
    + contradiction.
    + reflexivity.
    + exfalso. apply Exists_exists in Hx. destruct Hx as [p [Hp Hn]].
      rewrite Forall_forall in Hsize. specialize (Hsize p Hp). lia.
Qed.

Lemma upload_error_text_witness :
  snd (post_api_upload (mkConfig "./uploads" 5) sample_env empty_state
         (mkUploadRequest [sample_part "a.pdf" "application/pdf" 6] NoCustomNames))
  = (400, UploadResponse.mk false "" []
            (Some "Arquivo muito grande. Máximo 10MB permitido.")).
Proof.
  apply (proj1 (upload_error_text (mkConfig "./uploads" 5) sample_env empty_state
                  (mkUploadRequest [sample_part "a.pdf" "application/pdf" 6]
                                   NoCustomNames)
                  ltac:(simpl; lia)
                  ltac:(repeat constructor))).
  - constructor; [left; reflexivity|constructor].
  - constructor. simpl. lia.
Defined.

(** X15. More than ten parts: the call is answered 400, nothing is recorded
    and no blob is left; when no part is at fault by itself the error text
    is multer's [Unexpected field]. *)
Theorem too_many_items (cfg : Config) (env : Env) (st : State)
    (req : UploadRequest) :
  (10 < List.length (req_parts req))%nat ->
  fst (snd (post_api_upload cfg env st req)) = 400
  /\ pdf_files (fst (post_api_upload cfg env st req)) = pdf_files st
  /\ (forall q, In q (uploads (fst (post_api_upload cfg env st req))) ->
                In q (uploads st))
  /\ (Forall (fun p => ~ bad_part cfg p) (req_parts req) ->
      snd (post_api_upload cfg env st req)
      = (400, UploadResponse.mk false "" [] (Some "Unexpected field"))).
Proof.
  intros Hlen.
  destruct (multer_array_rejects cfg (req_parts req) 10 (uploads st)
              (or_intror Hlen)) as [d [e E]].
  rewrite (post_api_upload_rejected cfg env st req d e E).
  destruct (handleUploadError_400 e) as [H1 _].
  cbn [fst snd pdf_files uploads].
  split; [exact H1|]. split; [reflexivity|]. split.
  - eapply multer_array_no_blob; eauto.
  - intros Hgood. rewrite Forall_forall in Hgood.
    assert (Hnot : forall (P : Part -> Prop),
               (forall p, P p -> bad_part cfg p) ->
               ~ Exists P (req_parts req)).
    { intros P HP Hx. apply Exists_exists in Hx. destruct Hx as [p [Hp Hq]].
      apply (Hgood p Hp). now apply HP. }
    destruct (multer_error_kind _ _ _ _ _ _ E) as [[-> _]|[[_ Hx]|[_ Hx]]].
    + reflexivity.
    + exfalso. revert Hx. apply Hnot. unfold bad_part. tauto.
    + exfalso. revert Hx. apply Hnot. unfold bad_part. tauto.
Qed.

Lemma too_many_items_witness :
  fst (snd (post_api_upload default_config sample_env empty_state
              (mkUploadRequest
                 (repeat (sample_part "a.pdf" "application/pdf" 10) 11)
                 NoCustomNames))) = 400
  /\ snd (post_api_upload default_config sample_env empty_state
            (mkUploadRequest
               (repeat (sample_part "a.pdf" "application/pdf" 10) 11)
               NoCustomNames))
     = (400, UploadResponse.mk false "" [] (Some "Unexpected field")).
Proof.
  destruct (too_many_items default_config sample_env empty_state
              (mkUploadRequest
                 (repeat (sample_part "a.pdf" "application/pdf" 10) 11)
                 NoCustomNames)
              ltac:(simpl; lia)) as [H1 [_ [_ H4]]].
  split; [exact H1|]. apply H4.
  apply Forall_forall. intros p Hp. apply repeat_spec in Hp. subst p.
  apply part_ok_true. reflexivity.
Defined.

(** X16. An accepted batch of [n] items raises by [n] both the [totalFiles] of
    the statistics and the [total] of the unfiltered listing. *)
Theorem upload_adds_to_counts (cfg : Config) (env : Env) (st : State)
    (req : UploadRequest) (now : Z) :
  fst (snd (post_api_upload cfg env st req)) = 200 ->
  totalFiles (StatsResponse.stats
                (snd (get_api_stats
                        (pdf_files (fst (post_api_upload cfg env st req))) now)))
  = totalFiles (StatsResponse.stats (snd (get_api_stats (pdf_files st) now)))
    + Z.of_nat (List.length (req_parts req))
  /\ total (FilesResponse.pagination
              (snd (get_api_files
                      (pdf_files (fst (post_api_upload cfg env st req)))
                      (mkFilesQuery None None None))))
     = total (FilesResponse.pagination
                (snd (get_api_files (pdf_files st) (mkFilesQuery None None None))))
       + Z.of_nat (List.length (req_parts req)).
Proof.
  intros H200.
  destruct (post_api_upload_200_inv cfg env st req H200) as [_ L].
  destruct (upload_loop_items _ _ _ _ _ _ _ L) as [rows [Hr [Hl _]]].
  rewrite length_map in Hl. rewrite Hr.
  assert (Hc : forall t : Table, select_count t None = Z.of_nat (List.length t))
    by (intros t; unfold select_count; now rewrite where_none).
  split.
  - unfold get_api_stats. cbn [snd StatsResponse.stats totalFiles].
    rewrite !Hc, length_app. lia.
  - unfold get_api_files. cbn [q_page q_limit search whereClause].
    rewrite !select_page_some by lia.
    rewrite !count_query_plain.
    cbn [snd FilesResponse.pagination total].
    rewrite length_app. lia.
Qed.

Lemma upload_adds_to_counts_witness :
  totalFiles (StatsResponse.stats
                (snd (get_api_stats
                        (pdf_files (fst (post_api_upload default_config sample_env
                                           empty_state two_named_pdfs))) 0)))
  = totalFiles (StatsResponse.stats (snd (get_api_stats (pdf_files empty_state) 0)))
    + Z.of_nat (List.length (req_parts two_named_pdfs))
  /\ total (FilesResponse.pagination
              (snd (get_api_files
                      (pdf_files (fst (post_api_upload default_config sample_env
                                         empty_state two_named_pdfs)))
                      (mkFilesQuery None None None))))
     = total (FilesResponse.pagination
                (snd (get_api_files (pdf_files empty_state)
                        (mkFilesQuery None None None))))
       + Z.of_nat (List.length (req_parts two_named_pdfs)).
Proof.
  apply (upload_adds_to_counts default_config sample_env empty_state
           two_named_pdfs 0).
  vm_compute. reflexivity.
Defined.

(** X25. A custom-names field above the size that multer allows a field:
    the call is answered 400, nothing is recorded and no blob is left; when
    the files of the request are in order (at most ten, in the field
    [pdfFiles], of an allowed type and below the size limit) the error text
    is multer's [Field value too long]. *)
Theorem oversize_names_field (cfg : Config) (env : Env) (st : State)
    (req : UploadRequest) :
  customNames req = FieldValueTooLong ->
  fst (snd (post_api_upload cfg env st req)) = 400
  /\ pdf_files (fst (post_api_upload cfg env st req)) = pdf_files st
  /\ (forall q, In q (uploads (fst (post_api_upload cfg env st req))) ->
                In q (uploads st))
  /\ ((List.length (req_parts req) <= 10)%nat ->
      Forall (fun p => fieldname p = "pdfFiles"
                       /\ In (part_mimetype p) allowedMimes
                       /\ part_size p < MAX_FILE_SIZE cfg) (req_parts req) ->
      snd (post_api_upload cfg env st req)
      = (400, UploadResponse.mk false "" [] (Some "Field value too long"))).
Proof.
  intros Hc.
  destruct (proj2 (multer_fails_iff cfg req (uploads st)) (or_intror Hc))
    as [d [e E]].
  rewrite (post_api_upload_failed cfg env st req d e E).
  destruct (handleUploadError_400 e) as [H1 _].
  cbn [fst snd pdf_files uploads].
  split; [exact H1|]. split; [reflexivity|]. split.
  - eapply multer_stage_no_blob; eauto.
  - intros Hlen Hgood.
    assert (Hok : forallb (part_ok cfg) (req_parts req) = true).
    { apply forallb_forall. intros p Hp.
      rewrite Forall_forall in Hgood. destruct (Hgood p Hp) as [Hf [Hm Hs]].
      unfold part_ok. rewrite Hf, (proj2 (fileFilter_In _) Hm).
      replace (MAX_FILE_SIZE cfg <? part_size p) with false
        by (symmetry; apply Z.ltb_ge; lia).
      reflexivity. }
    destruct (multer_array_accepts cfg (req_parts req) 10 (uploads st) Hok Hlen)
      as [d1 E1].
    rewrite (multer_stage_too_long cfg req _ d1 _ E1 Hc) in E.
    injection E as _ <-. reflexivity.
Qed.

Lemma oversize_names_field_witness :
  fst (snd (post_api_upload default_config sample_env empty_state
              (mkUploadRequest [sample_part "a.pdf" "application/pdf" 10]
                               FieldValueTooLong))) = 400
  /\ uploads (fst (post_api_upload default_config sample_env empty_state
                     (mkUploadRequest [sample_part "a.pdf" "application/pdf" 10]
                                      FieldValueTooLong))) = []
  /\ snd (post_api_upload default_config sample_env empty_state
            (mkUploadRequest [sample_part "a.pdf" "application/pdf" 10]
                             FieldValueTooLong))
     = (400, UploadResponse.mk false "" [] (Some "Field value too long")).
Proof.
  destruct (oversize_names_field default_config sample_env empty_state
              (mkUploadRequest [sample_part "a.pdf" "application/pdf" 10]
                               FieldValueTooLong) eq_refl)
    as [H1 [_ [H3 H4]]].
  split; [exact H1|]. split.
  - destruct (uploads (fst (post_api_upload default_config sample_env empty_state
                              (mkUploadRequest
                                 [sample_part "a.pdf" "application/pdf" 10]
                                 FieldValueTooLong)))) as [|q l] eqn:E;
      [reflexivity|].
    destruct (H3 q (or_introl eq_refl)).
  - apply H4; [simpl; lia|].
    constructor; [|constructor].
    split; [reflexivity|]. split; [left; reflexivity|]. simpl. lia.
Defined.

(** X26. An upload that ends in 500 keeps what it had done: the blob of
    every item of the request is in the upload directory, the files that
    were there before are still there, and the rows inserted before the
    failure, fewer than the request has items, are in the catalog. *)
Theorem failed_upload_leaves_blobs (cfg : Config) (env : Env) (st : State)
    (req : UploadRequest) :
  fst (snd (post_api_upload cfg env st req)) = 500 ->
  (forall p, In p (req_parts req) ->
     In (path_join (UPLOAD_DIR cfg) (storage_filename p))
        (uploads (fst (post_api_upload cfg env st req))))
  /\ (forall q, In q (uploads st) ->
        In q (uploads (fst (post_api_upload cfg env st req))))
  /\ exists rows,
       pdf_files (fst (post_api_upload cfg env st req)) = (pdf_files st ++ rows)%list
       /\ (List.length rows < List.length (req_parts req))%nat.
Proof.
  intros H500.
  destruct (multer_stage cfg req (uploads st)) as [d [e|fs]] eqn:E.
  - rewrite (post_api_upload_failed cfg env st req d e E) in H500.
    destruct (handleUploadError_400 e) as [H1 _].
    cbn [fst snd] in H500. rewrite H1 in H500. discriminate.
  - destruct (multer_stage_inr_inv _ _ _ _ _ E) as [Ea _].
    destruct (multer_array_inr_disk _ _ _ _ _ _ Ea) as [-> [_ [_ [Hd Hp]]]].
    rewrite (post_api_upload_accepted cfg env st req d _ E) in *.
    cbn [fst snd pdf_files uploads] in *.
    split; [exact Hp|]. split; [exact Hd|].
    destruct (upload_handler_outcome env (map (stored_file cfg) (req_parts req))
                (customNames req) (pdf_files st)) as [[H1 _]|[[H1 _]|[_ H2]]];
      [rewrite H1 in H500; discriminate|rewrite H1 in H500; discriminate|].
    destruct H2 as [rows [Hr Hl]]. rewrite length_map in Hl. eauto.
Qed.

Lemma failed_upload_leaves_blobs_witness :
  fst (snd (post_api_upload default_config sample_env empty_state long_name_request))
  = 500
  /\ uploads (fst (post_api_upload default_config sample_env empty_state
                     long_name_request))
     = ["uploads/pdf-1700000000000-123456789-a.pdf"]
  /\ pdf_files (fst (post_api_upload default_config sample_env empty_state
                       long_name_request)) = []
  /\ (forall p, In p (req_parts long_name_request) ->
        In (path_join (UPLOAD_DIR default_config) (storage_filename p))
           (uploads (fst (post_api_upload default_config sample_env empty_state
                            long_name_request)))).
Proof.
  split; [vm_compute; reflexivity|].
  split; [vm_compute; reflexivity|].
  split; [vm_compute; reflexivity|].
  apply (failed_upload_leaves_blobs default_config sample_env empty_state
           long_name_request).
  vm_compute. reflexivity.
Defined.

(** * The stored file name *)

Lemma chars_cons (c : ascii) (s : string) :
  exists cs rest,
    chars (String c s) = String c cs :: rest
    /\ all_continuation cs = true
    /\ Forall (fun ch => is_char ch = true) rest.
Proof.
  revert c. induction s as [|d s IH]; intros c.
  - exists EmptyString, []. repeat split. constructor.
  - destruct (IH d) as [cs [rest [E [Hc Hr]]]].
    cbn [chars continues] in *. rewrite E.
    destruct (is_continuation d) eqn:Ed.
    + exists (String d cs), rest. split; [reflexivity|]. split; [|exact Hr].
      cbn [all_continuation]. now rewrite Ed, Hc.
    + exists EmptyString, (String d cs :: rest). split; [reflexivity|].
      split; [reflexivity|]. constructor; [|exact Hr].
      cbn [is_char]. now rewrite Ed, Hc.
Qed.

Lemma chars_chunk (cs X : string) :
  all_continuation cs = true -> continues X = false ->
  forall c, chars (String c (cs ++ X)) = String c cs :: chars X.
Proof.
  intros Hc HX. induction cs as [|d cs IH]; intros c.
  - cbn [append chars]. now rewrite HX.
  - cbn [all_continuation] in Hc. apply andb_prop in Hc. destruct Hc as [Hd Hc].
    cbn [append]. change (chars (String c (String d (cs ++ X))))
      with (if continues (String d (cs ++ X)) then
              match chars (String d (cs ++ X)) with
              | ch :: rest => String c ch :: rest
              | [] => [String c EmptyString]
              end
            else String c EmptyString :: chars (String d (cs ++ X))).
    cbn [continues]. rewrite Hd, (IH Hc d). reflexivity.
Qed.

Lemma join_continues (l : list string) :
  Forall (fun ch => is_char ch = true) l -> continues (join l) = false.
Proof.
  intros H. destruct H as [|ch rest Hch _]; [reflexivity|].
  destruct ch as [|c cs]; [discriminate|].
  cbn [is_char] in Hch. apply andb_prop in Hch. destruct Hch as [Hc _].
  cbn [join fold_right append continues]. now apply negb_true_iff in Hc.
Qed.

(** A list of characters is the list of the characters of its text; the
    first of them may be the end of a character. *)
Lemma chars_join (ch : string) (rest : list string) :
  is_chunk ch = true -> Forall (fun x => is_char x = true) rest ->
  chars (join (ch :: rest)) = ch :: rest.
Proof.
  revert ch. induction rest as [|x rest IH]; intros ch Hch Hrest.
  - destruct ch as [|c cs]; [discriminate|].
    cbn [join fold_right]. rewrite append_nil_r.
    rewrite <- (append_nil_r cs) at 1.
    now rewrite chars_chunk.
  - destruct ch as [|c cs]; [discriminate|].
    change (join (String c cs :: x :: rest)) with (String c (cs ++ join (x :: rest))).
    rewrite chars_chunk; [|exact Hch|now apply join_continues].
    f_equal. inversion Hrest; subst. apply IH; [|assumption].
    destruct x as [|d ds]; [discriminate|].
    cbn [is_char is_chunk] in *. apply andb_prop in H1. tauto.
Qed.

Lemma is_char_chunk (ch : string) : is_char ch = true -> is_chunk ch = true.
Proof.
  destruct ch as [|c cs]; [discriminate|].
  cbn [is_char is_chunk]. intros H. apply andb_prop in H. tauto.
Qed.

Lemma replace_runs_chars (l : list string) :
  Forall (fun ch => is_char ch = true) l ->
  forall b, Forall (fun ch => is_char ch = true) (replace_runs b l).
Proof.
  induction 1 as [|ch rest Hch Hrest IH]; intros b; cbn [replace_runs];
    [constructor|].
  destruct (is_white_space ch).
  - destruct b; [apply IH|]. constructor; [reflexivity|apply IH].
  - constructor; [exact Hch|apply IH].
Qed.

Lemma chars_join_list (l : list string) :
  Forall (fun ch => is_char ch = true) l -> chars (join l) = l.
Proof.
  intros H. destruct H as [|ch rest Hch Hrest]; [reflexivity|].
  apply chars_join; [now apply is_char_chunk|exact Hrest].
Qed.

(** Replacing the runs of white space in the characters of a text gives
    the characters of the text that results. *)
Lemma chars_replace_spaces (s : string) :
  chars (replace_spaces s) = replace_runs false (chars s).
Proof.
  unfold replace_spaces. destruct s as [|c s]; [reflexivity|].
  destruct (chars_cons c s) as [cs [rest [E [Hc Hr]]]]. rewrite E.
  cbn [replace_runs].
  destruct (is_white_space (String c cs)).
  - apply chars_join_list. constructor; [reflexivity|].
    now apply replace_runs_chars.
  - apply chars_join; [exact Hc|now apply replace_runs_chars].
Qed.

Lemma replace_runs_space_free (l : list string) (b : bool) :
  forallb (fun ch => negb (is_white_space ch)) (replace_runs b l) = true.
Proof.
  revert b. induction l as [|ch rest IH]; intros b; cbn [replace_runs];
    [reflexivity|].
  destruct (is_white_space ch) eqn:E.
  - destruct b; [apply IH|]. cbn [forallb]. now rewrite IH.
  - cbn [forallb]. now rewrite E, IH.
Qed.

Lemma replace_runs_id (l : list string) (b : bool) :
  forallb (fun ch => negb (is_white_space ch)) l = true -> replace_runs b l = l.
Proof.
  revert b. induction l as [|ch rest IH]; intros b H; [reflexivity|].
  cbn [forallb] in H. apply andb_prop in H. destruct H as [Hc Hr].
  apply negb_true_iff in Hc. cbn [replace_runs]. rewrite Hc. f_equal. now apply IH.
Qed.

Lemma white_space_length (ch : string) :
  is_white_space ch = true -> (1 <= String.length ch)%nat.
Proof.
  unfold is_white_space. intros H. apply existsb_exists in H.
  destruct H as [x [Hx E]]. apply String.eqb_eq in E. subst x.
  destruct ch; [|simpl; lia].
  exfalso. vm_compute in Hx. intuition discriminate.
Qed.

Lemma join_length_cons (ch : string) (l : list string) :
  String.length (join (ch :: l)) = (String.length ch + String.length (join l))%nat.
Proof. cbn [join fold_right]. apply append_length. Qed.

Lemma replace_runs_length (l : list string) (b : bool) :
  (String.length (join (replace_runs b l)) <= String.length (join l))%nat.
Proof.
  revert b. induction l as [|ch rest IH]; intros b; cbn [replace_runs];
    [simpl; lia|].
  rewrite (join_length_cons ch rest).
  destruct (is_white_space ch) eqn:E.
  - apply white_space_length in E.
    destruct b; [specialize (IH true); lia|].
    rewrite join_length_cons. specialize (IH true). simpl. lia.
  - rewrite join_length_cons. specialize (IH false). lia.
Qed.

Lemma replace_spaces_space_free (s : string) : space_free (replace_spaces s) = true.
Proof.
  unfold space_free. rewrite chars_replace_spaces. apply replace_runs_space_free.
Qed.

(** The white space that [\s] matches and the file name is rid of, in the
    examples: a run of blanks and tabs, a no-break space (U+00A0), an
    ideographic space (U+3000); other characters of more than one byte
    stay. *)
Lemma replace_spaces_examples :
  replace_spaces ("my  report" ++ utf8 [9]%nat ++ "v2.pdf") = "my_report_v2.pdf"
  /\ replace_spaces ("a" ++ utf8 [194; 160]%nat ++ "b.pdf") = "a_b.pdf"
  /\ replace_spaces ("a " ++ utf8 [227; 128; 128]%nat ++ "b.pdf") = "a_b.pdf"
  /\ replace_spaces ("caf" ++ utf8 [195; 169]%nat ++ ".pdf")
     = "caf" ++ utf8 [195; 169]%nat ++ ".pdf".
Proof. repeat split; vm_compute; reflexivity. Qed.

(** X17. The name multer stores a file under is [pdf-], the drawn suffix, a
    hyphen and a safe name; the safe name holds no white-space character,
    has no more bytes than the name the uploader gave, and is that very
    name exactly when that name holds no white-space character. *)
Theorem stored_name_shape (p : Part) :
  exists safeName,
    storage_filename p = "pdf-" ++ uniqueSuffix p ++ "-" ++ safeName
    /\ space_free safeName = true
    /\ (String.length safeName <= String.length (part_originalname p))%nat
    /\ (safeName = part_originalname p <-> space_free (part_originalname p) = true).
Proof.
  exists (replace_spaces (part_originalname p)).
  split; [reflexivity|].
  split; [apply replace_spaces_space_free|].
  split.
  { unfold replace_spaces.
    rewrite <- (join_chars (part_originalname p)) at 2.
    apply replace_runs_length. }
  split.
  - intros E. rewrite <- E. apply replace_spaces_space_free.
  - intros H. unfold replace_spaces. unfold space_free in H.
    rewrite replace_runs_id by exact H. apply join_chars.
Qed.

(** * The size text within the units table *)

(** X18. From 1 byte up to, but not including, 1024^4 bytes the text is a
    number and one of the four units: the unit is the largest that does
    not exceed the count, the number is the count in that unit rounded to
    the nearest hundredth, and it lies between 1 and 1024. *)
Theorem formatFileSize_in_range (bytes : Z) :
  1 <= bytes < k ^ 4 ->
  exists i unit h,
    nth_error sizes (Z.to_nat i) = Some unit
    /\ 0 <= i < 4
    /\ k ^ i <= bytes < k ^ (i + 1)
    /\ formatFileSize bytes = number_text h ++ " " ++ unit
    /\ 2 * k ^ i * h - k ^ i <= 200 * bytes < 2 * k ^ i * h + k ^ i
    /\ 100 <= h <= 102400.
Proof.
  intros Hb.
  destruct (formatFileSize_units bytes Hb) as [i [unit [Hu [Hi [Hr Hf]]]]].
  exists i, unit, (toFixed2 bytes (k ^ i)).
  assert (Hd : 0 < k ^ i) by (apply Z.pow_pos_nonneg; unfold k; lia).
  pose proof (toFixed2_nearest bytes (k ^ i) Hd) as Hn.
  assert (Hk : k ^ (i + 1) = 1024 * k ^ i).
  { rewrite Z.pow_add_r by lia. unfold k at 2. lia. }
  rewrite Hk in Hr.
  repeat split; try assumption; try lia; try nia.
Qed.

Lemma formatFileSize_in_range_witness :
  exists i unit h,
    nth_error sizes (Z.to_nat i) = Some unit
    /\ 0 <= i < 4
    /\ k ^ i <= 1234567 < k ^ (i + 1)
    /\ formatFileSize 1234567 = number_text h ++ " " ++ unit
    /\ 2 * k ^ i * h - k ^ i <= 200 * 1234567 < 2 * k ^ i * h + k ^ i
    /\ 100 <= h <= 102400.
Proof.
  apply (formatFileSize_in_range 1234567). vm_compute. split; [discriminate|reflexivity].
Defined.

(** * The client's selection *)

Lemma nth_error_map_index (A B : Type) (f : A -> nat -> B) (l : list A) :
  forall k j,
    nth_error (map_index f k l) j = option_map (fun x => f x (k + j)%nat) (nth_error l j).
Proof.
  induction l as [|x l IH]; intros k [|j]; simpl; try reflexivity.
  - now rewrite Nat.add_0_r.
  - rewrite IH. now rewrite Nat.add_succ_comm.
Qed.

Lemma map_index_Forall (A B : Type) (f : A -> nat -> B) (P : A -> Prop)
    (Q : B -> Prop) (l : list A) :
  (forall x i, P x -> Q (f x i)) ->
  forall k, Forall P l -> Forall Q (map_index f k l).
Proof.
  intros H. induction l as [|x l IH]; intros k Hl; simpl; [constructor|].
  inversion Hl; subst. constructor; auto.
Qed.

Lemma filter_index_past (A : Type) (n : nat) (l : list A) :
  forall i, (n < i)%nat -> filter_index (fun j => negb (j =? n)%nat) i l = l.
Proof.
  induction l as [|x l IH]; intros i Hi; simpl; [reflexivity|].
  replace (i =? n)%nat with false by (symmetry; apply Nat.eqb_neq; lia).
  simpl. f_equal. apply IH. lia.
Qed.

Lemma filter_index_remove (A : Type) (n : nat) (l : list A) :
  forall i m, n = (i + m)%nat ->
    filter_index (fun j => negb (j =? n)%nat) i l
    = (firstn m l ++ skipn (S m) l)%list.
Proof.
  induction l as [|x l IH]; intros i m Hn; simpl.
  - now destruct m.
  - destruct m as [|m].
    + replace (i =? n)%nat with true by (symmetry; apply Nat.eqb_eq; lia).
      simpl. apply filter_index_past. lia.
    + replace (i =? n)%nat with false by (symmetry; apply Nat.eqb_neq; lia).
      simpl. f_equal. apply IH. lia.
Qed.

Lemma filter_index_Forall (A : Type) (P : A -> Prop) (f : nat -> bool)
    (l : list A) :
  forall i, Forall P l -> Forall P (filter_index f i l).
Proof.
  induction l as [|x l IH]; intros i Hl; simpl; [constructor|].
  inversion Hl; subst. destruct (f i); [constructor|]; auto.
Qed.

(** X19. Every update of the selection keeps it made of files that pass the
    client's filter (type [application/pdf], at most 10 MiB): adding files,
    renaming an entry and removing an entry. *)
Theorem selection_stays_valid (prev : list SelectedFile.t)
    (chosen : list Browser.File) (index : nat) (newName : string) :
  Forall (fun item => selectable (SelectedFile.file item) = true) prev ->
  Forall (fun item => selectable (SelectedFile.file item) = true)
         (add_files chosen prev)
  /\ Forall (fun item => selectable (SelectedFile.file item) = true)
            (updateCustomName index newName prev)
  /\ Forall (fun item => selectable (SelectedFile.file item) = true)
            (removeFile index prev).
Proof.
  intros H. split; [|split].
  - unfold add_files. apply Forall_app. split; [exact H|].
    apply Forall_forall. intros item Hi.
    apply in_map_iff in Hi. destruct Hi as [f [<- Hf]].
    apply (proj1 (filter_In _ _ _)) in Hf. simpl. tauto.
  - unfold updateCustomName.
    apply (map_index_Forall _ _ _
             (fun item => selectable (SelectedFile.file item) = true)); [|exact H].
    intros x i Hx. destruct (i =? index)%nat; [simpl|]; exact Hx.
  - unfold removeFile. now apply filter_index_Forall.
Qed.

Lemma selection_stays_valid_witness :
  Forall (fun item => selectable (SelectedFile.file item) = true)
         (add_files [Browser.mk "c.pdf" "application/pdf" 5] sample_selected)
  /\ Forall (fun item => selectable (SelectedFile.file item) = true)
            (updateCustomName 0 "Alpha" sample_selected)
  /\ Forall (fun item => selectable (SelectedFile.file item) = true)
            (removeFile 0 sample_selected).
Proof.
  apply (selection_stays_valid sample_selected
           [Browser.mk "c.pdf" "application/pdf" 5] 0 "Alpha").
  repeat constructor.
Defined.

(** X20. Renaming entry [index] changes the custom name at that position and
    nothing else: the files and their order stay, the other custom names
    stay, and an index beyond the selection changes nothing. *)
Theorem updateCustomName_at (index : nat) (newName : string)
    (prev : list SelectedFile.t) :
  map SelectedFile.file (updateCustomName index newName prev)
  = map SelectedFile.file prev
  /\ (forall j,
        nth_error (map SelectedFile.customName (updateCustomName index newName prev)) j
        = if (j =? index)%nat
          then option_map (fun _ => newName) (nth_error prev j)
          else nth_error (map SelectedFile.customName prev) j)
  /\ ((List.length prev <= index)%nat -> updateCustomName index newName prev = prev).
Proof.
  assert (Hnth : forall j,
             nth_error (updateCustomName index newName prev) j
             = option_map (fun item =>
                             if (j =? index)%nat
                             then SelectedFile.mk (SelectedFile.file item) newName
                             else item) (nth_error prev j)).
  { intros j. unfold updateCustomName. now rewrite nth_error_map_index. }
  split; [|split].
  - apply nth_error_ext. intros j.
    rewrite !nth_error_map, Hnth.
    destruct (nth_error prev j); [|reflexivity].
    simpl. now destruct (j =? index)%nat.
  - intros j. rewrite !nth_error_map, Hnth.
    destruct (nth_error prev j); simpl; now destruct (j =? index)%nat.
  - intros Hlen. apply nth_error_ext. intros j. rewrite Hnth.
    destruct (nth_error prev j) eqn:E; [|reflexivity].
    assert (j < List.length prev)%nat by (apply nth_error_Some; congruence).
    replace (j =? index)%nat with false by (symmetry; apply Nat.eqb_neq; lia).
    reflexivity.
Qed.

(** X21. Removing entry [index] takes out exactly that position; an index
    beyond the selection removes nothing. *)
Theorem removeFile_at (index : nat) (prev : list SelectedFile.t) :
  removeFile index prev = (firstn index prev ++ skipn (S index) prev)%list
  /\ ((List.length prev <= index)%nat -> removeFile index prev = prev)
  /\ ((index < List.length prev)%nat ->
      S (List.length (removeFile index prev)) = List.length prev).
Proof.
  assert (E : removeFile index prev
              = (firstn index prev ++ skipn (S index) prev)%list)
    by (unfold removeFile; now apply filter_index_remove).
  split; [exact E|]. split.
  - intros H. rewrite E, firstn_all2, skipn_all2 by lia. apply app_nil_r.
  - intros H. rewrite E, length_app, length_firstn, length_skipn. lia.
Qed.

(** X23. A custom name that the client left as it proposed it, or that the
    user emptied, stores the same name as a request without custom names:
    the file name with its first [.pdf] removed. *)
Theorem untouched_name_is_fallback (selectedFiles : list SelectedFile.t)
    (i : nat) (item : SelectedFile.t) (f : File) :
  nth_error selectedFiles i = Some item ->
  SelectedFile.customName item
    = replace_first ".pdf" "" (Browser.name (SelectedFile.file item))
  \/ SelectedFile.customName item = "" ->
  originalname f = Browser.name (SelectedFile.file item) ->
  customName_of (map SelectedFile.customName selectedFiles) i f
    = customName_of [] i f
  /\ customName_of (map SelectedFile.customName selectedFiles) i f
     = replace_first ".pdf" "" (originalname f).
Proof.
  intros Hi Hname Ho.
  assert (E : customName_of [] i f = replace_first ".pdf" "" (originalname f))
    by (unfold customName_of; now destruct i).
  rewrite E. split; [|];
    unfold customName_of; rewrite nth_error_map, Hi; simpl;
    (destruct Hname as [Hn|Hn]; rewrite Hn;
     [rewrite <- Ho; now destruct (replace_first ".pdf" "" (originalname f))
     |reflexivity]).
Qed.

Lemma untouched_name_is_fallback_witness :
  customName_of (map SelectedFile.customName sample_selected) 1
    (mkFile "b c.pdf" "application/pdf" 20 "pdf-s1-b_c.pdf" "./uploads/pdf-s1-b_c.pdf")
    = customName_of [] 1
        (mkFile "b c.pdf" "application/pdf" 20 "pdf-s1-b_c.pdf" "./uploads/pdf-s1-b_c.pdf")
  /\ customName_of (map SelectedFile.customName sample_selected) 1
       (mkFile "b c.pdf" "application/pdf" 20 "pdf-s1-b_c.pdf" "./uploads/pdf-s1-b_c.pdf")
     = replace_first ".pdf" ""
         (originalname
            (mkFile "b c.pdf" "application/pdf" 20 "pdf-s1-b_c.pdf"
                    "./uploads/pdf-s1-b_c.pdf")).
Proof.
  apply (untouched_name_is_fallback sample_selected 1
           (SelectedFile.mk (Browser.mk "b c.pdf" "application/pdf" 20) "b c")).
  - reflexivity.
  - left. reflexivity.
  - reflexivity.
Defined.

(** * Edges of the listing *)

(** X5. A page number below 1 (with a positive page size) or a negative page
    size makes the page query fail: the answer is 500 with no files and
    the fixed pagination 1, 10, 0, 0. *)
Theorem listing_rejects_bad_page (t : Table) (srch : option string) (p s : Z) :
  s < 0 \/ (p < 1 /\ 1 <= s) ->
  get_api_files t (mkFilesQuery srch (Some p) (Some s))
  = (500, FilesResponse.mk false [] (mkPagination 1 10 0 0)
            (Some "Erro ao carregar arquivos")).
Proof.
  intros H. apply get_api_files_rejected.
  destruct H as [H|[H1 H2]]; [left; exact H|right; left; nia].
Qed.

Lemma listing_rejects_bad_page_witness :
  get_api_files [q1_report] (mkFilesQuery None (Some 0) (Some 10))
  = (500, FilesResponse.mk false [] (mkPagination 1 10 0 0)
            (Some "Erro ao carregar arquivos")).
Proof.
  apply (listing_rejects_bad_page [q1_report] None 0 10). right. lia.
Defined.
